(** * connectCurrentRefinedValues: a shallow embedding and its properties

    Source: src/connectors/current-refined-values/connectCurrentRefinedValues.js

    The connector validates a widget configuration, and on every rendering
    pass collects the active refinements of the search state, sorts and
    filters them, and hands a view model to an injected render function.

    Conventions of the embedding:
    - JavaScript strings are [string]; their characters stand for code
      units, and [<] on strings is the lexicographic order on them.
    - Array indices and the results of [indexOf] are [Z] ([-1] = not found).
    - A function that can throw returns a [Result]. *)

From Stdlib Require Import ZArith String Ascii List Sorted Permutation Lia Bool.
From Stdlib Require OrderedTypeEx.
From stdpp Require Import base list strings gmap sorting.

Local Set Warnings "-register-all".
Local Open Scope string_scope.
Local Open Scope list_scope.
Local Open Scope Z_scope.

(** ** JavaScript values *)

Inductive Primitive : Type :=
| PUndefined
| PNull
| PBoolean (b : bool)
| PNumber (n : Z)
| PString (s : string).

(** [x === y] on primitive values: equal types and equal contents. *)
Definition strictEquals (x y : Primitive) : bool :=
  match x, y with
  | PUndefined, PUndefined => true
  | PNull, PNull => true
  | PBoolean a, PBoolean b => Bool.eqb a b
  | PNumber a, PNumber b => Z.eqb a b
  | PString a, PString b => String.eqb a b
  | _, _ => false
  end.

(** Truthiness of a number used as a condition: every number but [0]. *)
Definition truthyNumber (n : Z) : bool := negb (n =? 0).

(** [l.indexOf(x)]: the index of the first element equal to [x], or [-1]. *)
Fixpoint indexOf {A : Type} (eqb : A → A → bool) (l : list A) (x : A) : Z :=
  match l with
  | [] => -1
  | y :: l' =>
      if eqb y x then 0
      else let i := indexOf eqb l' x in
           if i =? -1 then -1 else i + 1
  end.

(** [indexOf] on an array of strings searched for a string. *)
Definition indexOfString (l : list string) (x : string) : Z :=
  indexOf String.eqb l x.

(** ** Errors *)

(** [new Error(message)], and the [TypeError] the language itself raises. *)
Inductive Error : Type :=
| MkError (message : string)
| TypeError.

Inductive Result (A : Type) : Type :=
| Ok (a : A)
| Throw (e : Error).
Arguments Ok {A} a.
Arguments Throw {A} e.

Definition resultMap {A B : Type} (f : A → B) (r : Result A) : Result B :=
  match r with
  | Ok a => Ok (f a)
  | Throw e => Throw e
  end.

(** [l.map(f)] for a callback that can throw: the first throw ends it. *)
Fixpoint mapResult {A B : Type} (f : A → Result B) (l : list A) : Result (list B) :=
  match l with
  | [] => Ok []
  | x :: l' =>
      match f x with
      | Ok y => resultMap (cons y) (mapResult f l')
      | Throw e => Throw e
      end
  end.

(** ** Refinements *)

Record Refinement : Type := mkRefinement {
  type : string;
  attributeName : string;
  name : string;
  operator : Primitive;
  numericValue : Primitive
}.

(** ** Sorting *)

(** [getRestrictedIndexForSort(attributeNames, otherAttributeNames, attributeName)] *)
Definition getRestrictedIndexForSort
    (attributeNames otherAttributeNames : list string) (attributeName : string) : Z :=
  let idx := indexOfString attributeNames attributeName in
  if negb (idx =? -1) then idx
  else Z.of_nat (length attributeNames) + indexOfString otherAttributeNames attributeName.

(** [compareRefinements(attributeNames, otherAttributeNames, a, b)] *)
Definition compareRefinements
    (attributeNames otherAttributeNames : list string) (a b : Refinement) : Z :=
  let idxa := getRestrictedIndexForSort attributeNames otherAttributeNames (attributeName a) in
  let idxb := getRestrictedIndexForSort attributeNames otherAttributeNames (attributeName b) in
  if idxa =? idxb then
    if String.eqb (name a) (name b) then 0
    else if String.ltb (name a) (name b) then -1 else 1
  else if idxa <? idxb then -1 else 1.

(** [Array.prototype.sort(compareFn)], as a stable insertion sort: an
    element goes before the first element of the sorted rest that the
    comparator does not put before it. *)
Fixpoint sortInsert {A : Type} (compareFn : A → A → Z) (x : A) (l : list A) : list A :=
  match l with
  | [] => [x]
  | y :: l' =>
      if compareFn x y <=? 0 then x :: y :: l'
      else y :: sortInsert compareFn x l'
  end.

Fixpoint sort {A : Type} (compareFn : A → A → Z) (l : list A) : list A :=
  match l with
  | [] => []
  | x :: l' => sortInsert compareFn x (sort compareFn l')
  end.

(** ** The refinement collector *)

(** The test that guards [res.push] in the reduce callback of
    [getFilteredRefinements]:
    [attributeNames.indexOf(refinement.attributeName) === -1 &&
     res.indexOf(refinement.attributeName === -1)].
    The second operand looks up, in the collected names, the boolean
    [refinement.attributeName === -1], and is used for its truthiness. *)
Definition shouldCollect (attributeNames res : list string) (refinement : Refinement) : bool :=
  (indexOfString attributeNames (attributeName refinement) =? -1)
  && truthyNumber
       (indexOf strictEquals (map PString res)
          (PBoolean (strictEquals (PString (attributeName refinement)) (PNumber (-1))))).

(** The reduce of [getFilteredRefinements] that builds [otherAttributeNames]. *)
Definition otherAttributeNames (attributeNames : list string) (refinements : list Refinement)
    : list string :=
  fold_left
    (λ res refinement,
       if shouldCollect attributeNames res refinement
       then res ++ [attributeName refinement]
       else res)
    refinements [].

(** The rest of [getFilteredRefinements], once [otherAttributeNames] is
    known: sort, then filter when asked to and given a non-empty list. *)
Definition sortAndFilter (attributeNames others : list string)
    (onlyListedAttributes : bool) (refinements : list Refinement) : list Refinement :=
  let refinements := sort (compareRefinements attributeNames others) refinements in
  if onlyListedAttributes && negb (Nat.eqb (length attributeNames) 0) then
    List.filter
      (λ refinement, negb (indexOfString attributeNames (attributeName refinement) =? -1))
      refinements
  else refinements.

Section Collector.
(** The search results and the search state belong to the search helper
    library; [getRefinements] (lib/utils.js) lists the active refinements. *)
Context {Results State : Type}.
Variable getRefinements : Results → State → list Refinement.

(** [getFilteredRefinements(results, state, attributeNames, onlyListedAttributes)] *)
Definition getFilteredRefinements (results : Results) (state : State)
    (attributeNames : list string) (onlyListedAttributes : bool) : list Refinement :=
  let refinements := getRefinements results state in
  let otherAttributeNames := otherAttributeNames attributeNames refinements in
  sortAndFilter attributeNames otherAttributeNames onlyListedAttributes refinements.
End Collector.

(** ** Clearing one refinement *)

(** The removal methods of the search state (the helper library's
    [SearchParameters]); each returns the new state. *)
Class SearchState (State : Type) : Type := {
  removeFacetRefinement : State → string → string → State;
  removeDisjunctiveFacetRefinement : State → string → string → State;
  clearRefinements : State → string → State;
  removeExcludeRefinement : State → string → string → State;
  removeNumericRefinement : State → string → Primitive → Primitive → State;
  removeTagRefinement : State → string → State
}.

(** [clearRefinementFromState(state, refinement)] *)
Definition clearRefinementFromState {State : Type} `{SearchState State}
    (state : State) (refinement : Refinement) : Result State :=
  if String.eqb (type refinement) "facet" then
    Ok (removeFacetRefinement state (attributeName refinement) (name refinement))
  else if String.eqb (type refinement) "disjunctive" then
    Ok (removeDisjunctiveFacetRefinement state (attributeName refinement) (name refinement))
  else if String.eqb (type refinement) "hierarchical" then
    Ok (clearRefinements state (attributeName refinement))
  else if String.eqb (type refinement) "exclude" then
    Ok (removeExcludeRefinement state (attributeName refinement) (name refinement))
  else if String.eqb (type refinement) "numeric" then
    Ok (removeNumericRefinement state (attributeName refinement)
          (operator refinement) (numericValue refinement))
  else if String.eqb (type refinement) "tag" then
    Ok (removeTagRefinement state (name refinement))
  else
    Throw (MkError ("clearRefinement: type " ++ type refinement ++ " is not handled")).

(** The calls a state can receive, and a state that only records them:
    the mock a test of the dispatch would use. *)
Inductive StateCall : Type :=
| RemoveFacetRefinement (attributeName name : string)
| RemoveDisjunctiveFacetRefinement (attributeName name : string)
| ClearRefinements (attributeName : string)
| RemoveExcludeRefinement (attributeName name : string)
| RemoveNumericRefinement (attributeName : string) (operator numericValue : Primitive)
| RemoveTagRefinement (name : string).

#[export] Instance RecordingState : SearchState (list StateCall) := {
  removeFacetRefinement calls a n := calls ++ [RemoveFacetRefinement a n];
  removeDisjunctiveFacetRefinement calls a n := calls ++ [RemoveDisjunctiveFacetRefinement a n];
  clearRefinements calls a := calls ++ [ClearRefinements a];
  removeExcludeRefinement calls a n := calls ++ [RemoveExcludeRefinement a n];
  removeNumericRefinement calls a o v := calls ++ [RemoveNumericRefinement a o v];
  removeTagRefinement calls n := calls ++ [RemoveTagRefinement n]
}.

(** ** Widget configuration *)

(** The values a configuration is made of.  [JsObject plain properties]:
    [plain] tells an object made by an object literal or by [Object]
    (what lodash's [isPlainObject] accepts) from any other object, and
    [properties] are the properties that a read finds.  [JsStringObject s]
    is [new String(s)] and [JsBooleanObject b] is [new Boolean(b)]. *)
Inductive JsValue : Type :=
| JsPrimitive (p : Primitive)
| JsFunction (id : nat)
| JsArray (elements : list JsValue)
| JsObject (plain : bool) (properties : list (string * JsValue))
| JsStringObject (s : string)
| JsBooleanObject (b : bool).

Abbreviation JsUndefined := (JsPrimitive PUndefined).
Abbreviation JsNull := (JsPrimitive PNull).
Abbreviation JsBoolean b := (JsPrimitive (PBoolean b)).
Abbreviation JsString s := (JsPrimitive (PString s)).

Definition isUndefined (v : JsValue) : bool :=
  match v with JsPrimitive PUndefined => true | _ => false end.
(** lodash's [isBoolean] and [isString]: a primitive or its wrapper object. *)
Definition isBoolean (v : JsValue) : bool :=
  match v with
  | JsPrimitive (PBoolean _) => true
  | JsBooleanObject _ => true
  | _ => false
  end.
Definition isString (v : JsValue) : bool :=
  match v with
  | JsPrimitive (PString _) => true
  | JsStringObject _ => true
  | _ => false
  end.
Definition isArray (v : JsValue) : bool :=
  match v with JsArray _ => true | _ => false end.
Definition isPlainObject (v : JsValue) : bool :=
  match v with JsObject plain _ => plain | _ => false end.
Definition isFunction (v : JsValue) : bool :=
  match v with JsFunction _ => true | _ => false end.

(** [properties[key]] in a list of own properties. *)
Fixpoint lookupProperty {V : Type} (properties : list (string * V)) (key : string) : option V :=
  match properties with
  | [] => None
  | (k, v) :: rest => if String.eqb k key then Some v else lookupProperty rest key
  end.

(** [v.key] for the keys that the connector reads ([attributes],
    [onlyListedAttributes], [name], [label], [template], [transformData]):
    the property of an object, [undefined] when it has none; a primitive, a
    wrapper object, an array or a function has none of them. *)
Definition getProperty (v : JsValue) (key : string) : JsValue :=
  match v with
  | JsObject _ properties => default JsUndefined (lookupProperty properties key)
  | _ => JsUndefined
  end.

(** A destructuring default [{key = d} = v]: [d] replaces [undefined] only. *)
Definition withDefault (v d : JsValue) : JsValue :=
  if isUndefined v then d else v.

Definition usage : string :=
"Usage:
var customCurrentRefinedValues = connectCurrentRefinedValues(function renderFn(params, isFirstRendering) {
  // params = {
  //   attributes,
  //   clearAllClick,
  //   clearAllPosition,
  //   clearAllURL,
  //   clearRefinementClicks,
  //   clearRefinementURLs,
  //   refinements,
  //   instantSearchInstance,
  //   widgetParams,
  // }
});
search.addWidget(
  customCurrentRefinedValues({
    [ attributes = [] ],
    [ onlyListedAttributes = false ],
  })
);
Full documentation available at https://community.algolia.com/instantsearch.js/connectors/connectCurrentRefinedValues.html
".

(** The callback of the reduce that computes [attributesOK]. *)
Definition attributeOK (res : bool) (val : JsValue) : bool :=
  res
  && isPlainObject val
  && isString (getProperty val "name")
  && (isUndefined (getProperty val "label") || isString (getProperty val "label"))
  && (isUndefined (getProperty val "template") || isString (getProperty val "template")
      || isFunction (getProperty val "template"))
  && (isUndefined (getProperty val "transformData") || isFunction (getProperty val "transformData")).

(** [isArray(attributes) && reduce(attributes, ..., true)] *)
Definition attributesOK (attributes : JsValue) : bool :=
  match attributes with
  | JsArray elements => fold_left attributeOK elements true
  | _ => false
  end.

Definition showUsage (attributes onlyListedAttributes : JsValue) : bool :=
  false
  || negb (isArray attributes)
  || negb (attributesOK attributes)
  || negb (isBoolean onlyListedAttributes).

Definition elementsOf (v : JsValue) : list JsValue :=
  match v with JsArray elements => elements | _ => [] end.

(** A value used as a condition: [undefined], [null], [false], [0] and the
    empty string are falsy, everything else, every object included, is
    truthy. *)
Definition truthy (v : JsValue) : bool :=
  match v with
  | JsPrimitive PUndefined => false
  | JsPrimitive PNull => false
  | JsPrimitive (PBoolean b) => b
  | JsPrimitive (PNumber n) => negb (n =? 0)
  | JsPrimitive (PString s) => negb (String.eqb s "")
  | _ => true
  end.

(** The property key that a name gives in [res[attribute.name]]: the string
    itself, and for a [String] object the string it wraps.  No other value
    passes for a name. *)
Definition propertyKey (v : JsValue) : option string :=
  match v with
  | JsPrimitive (PString s) => Some s
  | JsStringObject s => Some s
  | _ => None
  end.

(** [res[attribute.name] = attribute] on the object [res], given as its own
    properties and the prototype set for it ([None]: still
    [Object.prototype]).  The key [__proto__] is the accessor of
    [Object.prototype]: assigning an object to it sets the prototype of
    [res] and adds no property. *)
Definition assignAttribute (res : gmap string JsValue * option JsValue)
    (attribute : JsValue) : gmap string JsValue * option JsValue :=
  match propertyKey (getProperty attribute "name") with
  | Some key =>
      if String.eqb key "__proto__" then (res.1, Some attribute)
      else (<[key := attribute]> res.1, res.2)
  | None => res
  end.

(** What the closures [init] and [render] of a widget capture, for a widget
    whose attribute names are primitive strings and whose [attributesObj]
    has kept its prototype. *)
Record Widget : Type := mkWidget {
  widget_widgetParams : JsValue;
  widget_onlyListedAttributes : bool;
  widget_attributeNames : list string;
  widget_restrictedTo : list string;
  widget_attributesObj : gmap string JsValue
}.

(** The values that the factory computes once per widget, as it computes
    them: [attributeNames] holds the [name] values themselves. *)
Record Built : Type := mkBuilt {
  built_widgetParams : JsValue;
  built_onlyListedAttributes : JsValue;
  built_attributeNames : list JsValue;
  built_restrictedTo : list JsValue;
  built_attributesObj : gmap string JsValue;
  built_attributesObjPrototype : option JsValue
}.

(** [connectCurrentRefinedValues(renderCurrentRefinedValues)(widgetParams)]:
    the validation and the values computed once per widget.  The render
    function plays no part before [init]; destructuring [null] is a
    [TypeError], not the usage error. *)
Definition connectCurrentRefinedValues (widgetParams : JsValue) : Result Built :=
  let widgetParams := withDefault widgetParams (JsObject true []) in
  match widgetParams with
  | JsPrimitive PNull =>
      Throw TypeError
  | _ =>
      let attributes := withDefault (getProperty widgetParams "attributes") (JsArray []) in
      let onlyListedAttributes :=
        withDefault (getProperty widgetParams "onlyListedAttributes") (JsBoolean false) in
      if showUsage attributes onlyListedAttributes then Throw (MkError usage)
      else
        let attributeNames :=
          map (λ attribute, getProperty attribute "name") (elementsOf attributes) in
        let restrictedTo := if truthy onlyListedAttributes then attributeNames else [] in
        let attributesObj := fold_left assignAttribute (elementsOf attributes) (∅, None) in
        Ok {| built_widgetParams := widgetParams;
              built_onlyListedAttributes := onlyListedAttributes;
              built_attributeNames := attributeNames;
              built_restrictedTo := restrictedTo;
              built_attributesObj := attributesObj.1;
              built_attributesObjPrototype := attributesObj.2 |}
  end.

(** The primitive strings of an array that holds nothing else. *)
Fixpoint primitiveStrings (l : list JsValue) : option (list string) :=
  match l with
  | [] => Some []
  | JsPrimitive (PString s) :: l' => cons s <$> primitiveStrings l'
  | _ => None
  end.

(** The widget of the values of the factory, when [Widget] can hold them. *)
Definition widgetOf (built : Built) : option Widget :=
  match primitiveStrings (built_attributeNames built),
        primitiveStrings (built_restrictedTo built),
        built_attributesObjPrototype built with
  | Some attributeNames, Some restrictedTo, None =>
      Some {| widget_widgetParams := built_widgetParams built;
              widget_onlyListedAttributes := truthy (built_onlyListedAttributes built);
              widget_attributeNames := attributeNames;
              widget_restrictedTo := restrictedTo;
              widget_attributesObj := built_attributesObj built |}
  | _, _, _ => None
  end.

(** ** The rendering passes *)

(** A bound function: [clearRefinementsAndSearch.bind(null, helper, restrictedTo)]
    or [clearRefinement.bind(null, helper, refinement)].  Helpers are named
    by their reference. *)
Inductive Closure : Type :=
| BoundClearRefinementsAndSearch (helper : nat) (restrictedTo : list string)
| BoundClearRefinement (helper : nat) (refinement : Refinement).

Section Rendering.
Context {Results State Instance : Type} `{SearchState State}.

(** From lib/utils.js and from the host. *)
Variable getRefinements : Results → State → list Refinement.
Variable clearRefinementsFromState : State → list string → State.
(** The object literal [{}] that [init] passes for the results. *)
Variable emptyObject : Results.

(** The helper object: its current state and the searches it has run. *)
Record Helper : Type := mkHelper {
  state : State;
  searches : nat
}.

(** The values of the properties of the rendering options. *)
Inductive Value : Type :=
| VUndefined
| VAttributes (attributesObj : gmap string JsValue)
| VFunction (f : nat)
| VString (s : string)
| VFunctions (fs : list nat)
| VStrings (l : list string)
| VRefinements (l : list Refinement)
| VInstance (i : Instance)
| VJs (v : JsValue).

(** What the code can read and write: the helpers, the function objects
    made by [bind] (a reference is an index, [bind] appends), the property
    [_clearRefinementsAndSearch] of the widget, and the calls the render
    function has received. *)
Record World : Type := mkWorld {
  helpers : nat → Helper;
  functions : list Closure;
  _clearRefinementsAndSearch : option nat;
  rendered : list (list (string * Value) * bool)
}.

(** Computations that read and write the world and may throw. *)
Definition M (A : Type) : Type := World → Result A * World.

#[local] Instance M_ret : MRet M := λ A a w, (Ok a, w).

#[local] Instance M_bind : MBind M := λ A B f m w,
  match m w with
  | (Ok a, w') => f a w'
  | (Throw e, w') => (Throw e, w')
  end.

Definition liftResult {A : Type} (r : Result A) : M A := λ w, (r, w).

(** [l.map(f)] for a callback with effects. *)
Fixpoint mapM {A B : Type} (f : A → M B) (l : list A) : M (list B) :=
  match l with
  | [] => mret []
  | x :: l' => y ← f x ; ys ← mapM f l' ; mret (y :: ys)
  end.

(** [helper.state] *)
Definition helperState (helper : nat) : M State :=
  λ w, (Ok (state (helpers w helper)), w).

(** [helper.setState(newState)] *)
Definition helperSetState (helper : nat) (newState : State) : M unit :=
  λ w, (Ok (),
        {| helpers := λ h, if Nat.eqb h helper
                           then {| state := newState; searches := searches (helpers w h) |}
                           else helpers w h;
           functions := functions w;
           _clearRefinementsAndSearch := _clearRefinementsAndSearch w;
           rendered := rendered w |}).

(** [helper.search()] *)
Definition helperSearch (helper : nat) : M unit :=
  λ w, (Ok (),
        {| helpers := λ h, if Nat.eqb h helper
                           then {| state := state (helpers w h); searches := S (searches (helpers w h)) |}
                           else helpers w h;
           functions := functions w;
           _clearRefinementsAndSearch := _clearRefinementsAndSearch w;
           rendered := rendered w |}).

(** [f.bind(null, ...)]: a new function object. *)
Definition bindFunction (c : Closure) : M nat :=
  λ w, (Ok (length (functions w)),
        {| helpers := helpers w;
           functions := functions w ++ [c];
           _clearRefinementsAndSearch := _clearRefinementsAndSearch w;
           rendered := rendered w |}).

(** [this._clearRefinementsAndSearch = f] *)
Definition setClearRefinementsAndSearch (f : nat) : M unit :=
  λ w, (Ok (),
        {| helpers := helpers w;
           functions := functions w;
           _clearRefinementsAndSearch := Some f;
           rendered := rendered w |}).

(** [this._clearRefinementsAndSearch] *)
Definition getClearRefinementsAndSearch : M Value :=
  λ w, (Ok (from_option VFunction VUndefined (_clearRefinementsAndSearch w)), w).

(** [renderCurrentRefinedValues(params, isFirstRendering)]: the render
    function is the host's; its calls are recorded. *)
Definition renderCurrentRefinedValues
    (params : list (string * Value)) (isFirstRendering : bool) : M unit :=
  λ w, (Ok (),
        {| helpers := helpers w;
           functions := functions w;
           _clearRefinementsAndSearch := _clearRefinementsAndSearch w;
           rendered := rendered w ++ [(params, isFirstRendering)] |}).

(** [clearRefinement(helper, refinement)] *)
Definition clearRefinement (helper : nat) (refinement : Refinement) : M unit :=
  current ← helperState helper ;
  newState ← liftResult (clearRefinementFromState current refinement) ;
  helperSetState helper newState ;;
  helperSearch helper.

(** [clearRefinementsAndSearch(helper, restrictedTo)] of lib/utils.js. *)
Variable clearRefinementsAndSearch : nat → list string → M unit.

(** Calling a function object; the bound functions ignore the arguments
    of the call.  Calling what is not a function is a [TypeError]. *)
Definition callFunction (f : nat) : M unit :=
  λ w, match functions w !! f with
       | Some (BoundClearRefinement helper refinement) =>
           clearRefinement helper refinement w
       | Some (BoundClearRefinementsAndSearch helper restrictedTo) =>
           clearRefinementsAndSearch helper restrictedTo w
       | None => (Throw TypeError, w)
       end.

Record InitOptions : Type := mkInitOptions {
  init_helper : nat;
  init_createURL : State → string;
  init_instantSearchInstance : Instance
}.

Record RenderOptions : Type := mkRenderOptions {
  render_results : Results;
  render_helper : nat;
  render_state : State;
  render_createURL : State → string;
  render_instantSearchInstance : Instance
}.

(** The method [init] of the widget. *)
Definition init (widget : Widget) (options : InitOptions) : M unit :=
  let helper := init_helper options in
  let createURL := init_createURL options in
  f ← bindFunction (BoundClearRefinementsAndSearch helper (widget_restrictedTo widget)) ;
  setClearRefinementsAndSearch f ;;
  helper_state ← helperState helper ;
  let clearAllURL :=
    createURL (clearRefinementsFromState helper_state (widget_restrictedTo widget)) in
  helper_state ← helperState helper ;
  let refinements :=
    getFilteredRefinements getRefinements emptyObject helper_state
      (widget_attributeNames widget) (widget_onlyListedAttributes widget) in
  clearRefinementURLs ←
    mapM (λ refinement,
            helper_state ← helperState helper ;
            cleared ← liftResult (clearRefinementFromState helper_state refinement) ;
            mret (createURL cleared))
         refinements ;
  clearRefinementClicks ←
    mapM (λ refinement, bindFunction (BoundClearRefinement helper refinement)) refinements ;
  clearAllClick ← getClearRefinementsAndSearch ;
  renderCurrentRefinedValues
    [ ("attributes", VAttributes (widget_attributesObj widget));
      ("clearAllClick", clearAllClick);
      ("clearAllURL", VString clearAllURL);
      ("clearRefinementClicks", VFunctions clearRefinementClicks);
      ("clearRefinementURLs", VStrings clearRefinementURLs);
      ("refinements", VRefinements refinements);
      ("instantSearchInstance", VInstance (init_instantSearchInstance options));
      ("widgetParams", VJs (widget_widgetParams widget)) ]
    true.

(** The method [render] of the widget. *)
Definition render (widget : Widget) (options : RenderOptions) : M unit :=
  let helper := render_helper options in
  let state := render_state options in
  let createURL := render_createURL options in
  let clearAllURL :=
    createURL (clearRefinementsFromState state (widget_restrictedTo widget)) in
  let refinements :=
    getFilteredRefinements getRefinements (render_results options) state
      (widget_attributeNames widget) (widget_onlyListedAttributes widget) in
  clearRefinementURLs ←
    mapM (λ refinement,
            cleared ← liftResult (clearRefinementFromState state refinement) ;
            mret (createURL cleared))
         refinements ;
  clearRefinementClicks ←
    mapM (λ refinement, bindFunction (BoundClearRefinement helper refinement)) refinements ;
  clearAllClick ← getClearRefinementsAndSearch ;
  renderCurrentRefinedValues
    [ ("attributes", VAttributes (widget_attributesObj widget));
      ("clearAllClick", clearAllClick);
      ("clearAllURL", VString clearAllURL);
      ("clearRefinementClicks", VFunctions clearRefinementClicks);
      ("clearRefinementURLs", VStrings clearRefinementURLs);
      ("refinements", VRefinements refinements);
      ("instantSearchInstance", VInstance (render_instantSearchInstance options));
      ("widgetParams", VJs (widget_widgetParams widget)) ]
    false.

(** The object literal that both passes hand to the render function. *)
Definition renderingOptions (widget : Widget) (clearAllClick : Value) (clearAllURL : string)
    (clicks : list nat) (urls : list string) (refinements : list Refinement)
    (instance : Instance) : list (string * Value) :=
  [ ("attributes", VAttributes (widget_attributesObj widget));
    ("clearAllClick", clearAllClick);
    ("clearAllURL", VString clearAllURL);
    ("clearRefinementClicks", VFunctions clicks);
    ("clearRefinementURLs", VStrings urls);
    ("refinements", VRefinements refinements);
    ("instantSearchInstance", VInstance instance);
    ("widgetParams", VJs (widget_widgetParams widget)) ].

(** The passes the host makes after [init]; a pass that throws keeps
    what it did before it threw. *)
Definition renderPasses (widget : Widget) (passes : list RenderOptions) (w : World) : World :=
  fold_left (λ w options, (render widget options w).2) passes w.

(** The three arrays of the rendering options describe the same
    refinements: at each index, the URL is that of [current] with the
    refinement cleared, and the click is the function object made of
    [clearRefinement], the helper and the refinement, whose call does
    what [clearRefinement] does. *)
Definition aligned (createURL : State → string) (current : State) (helper : nat)
    (w : World) (params : list (string * Value)) : Prop :=
  ∃ refinements urls clicks,
    lookupProperty params "refinements" = Some (VRefinements refinements)
    ∧ lookupProperty params "clearRefinementURLs" = Some (VStrings urls)
    ∧ lookupProperty params "clearRefinementClicks" = Some (VFunctions clicks)
    ∧ length urls = length refinements
    ∧ length clicks = length refinements
    ∧ ∀ (i : nat) refinement,
        refinements !! i = Some refinement →
        (∃ cleared,
           clearRefinementFromState current refinement = Ok cleared
           ∧ urls !! i = Some (createURL cleared))
        ∧ (∃ f,
             clicks !! i = Some f
             ∧ functions w !! f = Some (BoundClearRefinement helper refinement)
             ∧ callFunction f w = clearRefinement helper refinement w).

(** The function objects made by [clearRefinement.bind]. *)
Definition isBoundClearRefinement (c : Closure) : Prop :=
  match c with
  | BoundClearRefinement _ _ => True
  | BoundClearRefinementsAndSearch _ _ => False
  end.
End Rendering.

(** ** The collector on mutable arrays

    [Array.prototype.sort] sorts in place and [push] grows its array, so
    the collector is embedded a second time over a heap of objects, where a
    reference is an index and allocation appends. *)

Inductive Cell : Type :=
| ArrayOfRefinements (elements : list Refinement)
| ArrayOfStrings (elements : list string)
| OtherObject (v : JsValue).

Definition alloc (c : Cell) (heap : list Cell) : nat * list Cell :=
  (length heap, heap ++ [c]).

Definition readRefinements (a : nat) (heap : list Cell) : list Refinement :=
  match heap !! a with
  | Some (ArrayOfRefinements elements) => elements
  | _ => []
  end.

Definition readStrings (a : nat) (heap : list Cell) : list string :=
  match heap !! a with
  | Some (ArrayOfStrings elements) => elements
  | _ => []
  end.

(** [a.push(x)] *)
Definition push (a : nat) (x : string) (heap : list Cell) : list Cell :=
  match heap !! a with
  | Some (ArrayOfStrings elements) => <[a := ArrayOfStrings (elements ++ [x])]> heap
  | _ => heap
  end.

(** [a.sort(compareFn)], which returns [a] itself. *)
Definition sortInPlace (compareFn : Refinement → Refinement → Z) (a : nat)
    (heap : list Cell) : list Cell :=
  match heap !! a with
  | Some (ArrayOfRefinements elements) =>
      <[a := ArrayOfRefinements (sort compareFn elements)]> heap
  | _ => heap
  end.

Section InPlace.
Context {Results State : Type}.
(** [getRefinements] of lib/utils.js, returning a reference to an array. *)
Variable getRefinementsRef : Results → State → list Cell → nat * list Cell.

(** [getFilteredRefinements] with its arrays in the heap. *)
Definition getFilteredRefinementsRef (results : Results) (state : State)
    (attributeNames : list string) (onlyListedAttributes : bool)
    (heap : list Cell) : nat * list Cell :=
  let '(refinements, heap) := getRefinementsRef results state heap in
  let '(res, heap) := alloc (ArrayOfStrings []) heap in
  let heap :=
    fold_left
      (λ heap refinement,
         if shouldCollect attributeNames (readStrings res heap) refinement
         then push res (attributeName refinement) heap
         else heap)
      (readRefinements refinements heap) heap in
  let otherAttributeNames := res in
  let heap :=
    sortInPlace
      (compareRefinements attributeNames (readStrings otherAttributeNames heap))
      refinements heap in
  if onlyListedAttributes && negb (Nat.eqb (length attributeNames) 0) then
    alloc
      (ArrayOfRefinements
         (List.filter
            (λ refinement,
               negb (indexOfString attributeNames (attributeName refinement) =? -1))
            (readRefinements refinements heap)))
      heap
  else (refinements, heap).

(** What the embedding asks of [getRefinements]: the array it returns is
    new and holds the list of active refinements, and no object that
    existed before the call is written to. *)
Definition returnsNewArray (getRefinements : Results → State → list Refinement) : Prop :=
  ∀ results state heap,
    ∃ added,
      (getRefinementsRef results state heap).2 = heap ++ added
      ∧ (length heap ≤ (getRefinementsRef results state heap).1)%nat
      ∧ (heap ++ added) !! (getRefinementsRef results state heap).1
        = Some (ArrayOfRefinements (getRefinements results state)).
End InPlace.

(** ** The words of the specification *)

(** The position of the first occurrence of [x] in [l]. *)
Fixpoint position (x : string) (l : list string) : option nat :=
  match l with
  | [] => None
  | y :: l' => if String.eqb y x then Some 0%nat else S <$> position x l'
  end.

(** [x] is not one of the configured attribute names. *)
Definition unlisted (attributeNames : list string) (x : string) : bool :=
  indexOfString attributeNames x =? -1.

(** Lexicographic order on strings, ascending. *)
Definition lexLe (s1 s2 : string) : Prop :=
  s1 = s2 ∨ OrderedTypeEx.String_as_OT.lt s1 s2.

(** The two-level order: primary key the position of the attribute name
    in [order], secondary key the name. *)
Definition sortedBefore (order : list string) (a b : Refinement) : Prop :=
  ∃ ka kb : nat,
    position (attributeName a) order = Some ka
    ∧ position (attributeName b) order = Some kb
    ∧ ((ka < kb)%nat ∨ (ka = kb ∧ lexLe (name a) (name b))).

(** The collection of unlisted attribute names with the membership test
    [res.indexOf(name) === -1]: each name once, in first-seen order. *)
Definition otherAttributeNamesDedup (attributeNames : list string)
    (refinements : list Refinement) : list string :=
  fold_left
    (λ res refinement,
       if (indexOfString attributeNames (attributeName refinement) =? -1)
          && (indexOfString res (attributeName refinement) =? -1)
       then res ++ [attributeName refinement]
       else res)
    refinements [].

(** [getFilteredRefinements] over the deduplicated collection. *)
Definition getFilteredRefinementsDedup {Results State : Type}
    (getRefinements : Results → State → list Refinement)
    (results : Results) (state : State)
    (attributeNames : list string) (onlyListedAttributes : bool) : list Refinement :=
  let refinements := getRefinements results state in
  sortAndFilter attributeNames (otherAttributeNamesDedup attributeNames refinements)
    onlyListedAttributes refinements.

(** Two lists hold the same names, with their first occurrences in the
    same relative order. *)
Definition sameOrder (l1 l2 : list string) : Prop :=
  (∀ x, x ∈ l1 ↔ x ∈ l2)
  ∧ ∀ x y i j i' j',
      position x l1 = Some i → position y l1 = Some j →
      position x l2 = Some i' → position y l2 = Some j' →
      (i ?= j)%nat = (i' ?= j')%nat.

(** A string: the primitive or the [String] object; a boolean likewise. *)
Definition stringValue (v : JsValue) : Prop :=
  ∃ s, v = JsString s ∨ v = JsStringObject s.

Definition booleanValue (v : JsValue) : Prop :=
  ∃ b, v = JsBoolean b ∨ v = JsBooleanObject b.

(** A valid attribute specification: a plain record with a string [name];
    [label], if present, a string; [template], if present, a string or a
    function; [transformData], if present, a function.  A property is
    present when its value is not [undefined]. *)
Definition validAttribute (val : JsValue) : Prop :=
  (∃ properties, val = JsObject true properties)
  ∧ stringValue (getProperty val "name")
  ∧ (getProperty val "label" = JsUndefined ∨ stringValue (getProperty val "label"))
  ∧ (getProperty val "template" = JsUndefined
     ∨ stringValue (getProperty val "template")
     ∨ (∃ f, getProperty val "template" = JsFunction f))
  ∧ (getProperty val "transformData" = JsUndefined
     ∨ ∃ f, getProperty val "transformData" = JsFunction f).

(** A valid configuration: [attributes] (an empty array when left out) is
    an array of valid attribute specifications and [onlyListedAttributes]
    ([false] when left out) is a boolean. *)
Definition validConfiguration (widgetParams : JsValue) : Prop :=
  let widgetParams := withDefault widgetParams (JsObject true []) in
  (∃ elements,
     withDefault (getProperty widgetParams "attributes") (JsArray []) = JsArray elements
     ∧ Forall validAttribute elements)
  ∧ booleanValue
      (withDefault (getProperty widgetParams "onlyListedAttributes") (JsBoolean false)).

(** ** A concrete search state

    The state is the list of the active refinements; a removal drops the
    refinements it names. *)

Definition removeWhere (p : Refinement → bool) (state : list Refinement) : list Refinement :=
  List.filter (λ r, negb (p r)) state.

#[export] Instance ListState : SearchState (list Refinement) := {
  removeFacetRefinement state a n :=
    removeWhere (λ r, String.eqb (type r) "facet" && String.eqb (attributeName r) a
                      && String.eqb (name r) n) state;
  removeDisjunctiveFacetRefinement state a n :=
    removeWhere (λ r, String.eqb (type r) "disjunctive" && String.eqb (attributeName r) a
                      && String.eqb (name r) n) state;
  clearRefinements state a :=
    removeWhere (λ r, String.eqb (attributeName r) a) state;
  removeExcludeRefinement state a n :=
    removeWhere (λ r, String.eqb (type r) "exclude" && String.eqb (attributeName r) a
                      && String.eqb (name r) n) state;
  removeNumericRefinement state a o v :=
    removeWhere (λ r, String.eqb (type r) "numeric" && String.eqb (attributeName r) a
                      && strictEquals (operator r) o && strictEquals (numericValue r) v) state;
  removeTagRefinement state n :=
    removeWhere (λ r, String.eqb (type r) "tag" && String.eqb (name r) n) state
}.

(** The active refinements of a list state are the state itself. *)
Definition listRefinements (results : unit) (state : list Refinement) : list Refinement :=
  state.

Definition facet (attributeName name : string) : Refinement :=
  mkRefinement "facet" attributeName name PUndefined PUndefined.

Definition sampleState : list Refinement :=
  [ facet "c" "x"; facet "a" "red"; facet "c" "y"; facet "d" "z";
    facet "b" "m"; facet "a" "blue" ].

(** The refinement types that [clearRefinementFromState] handles. *)
Definition recognizedTypes : list string :=
  ["facet"; "disjunctive"; "hierarchical"; "exclude"; "numeric"; "tag"].

Definition numeric (attributeName operator : string) (numericValue : Z) : Refinement :=
  mkRefinement "numeric" attributeName "" (PString operator) (PNumber numericValue).

(** A configuration with two attributes, restricted to them. *)
Definition sampleConfiguration : JsValue :=
  JsObject true
    [ ("attributes",
       JsArray [ JsObject true [("name", JsString "b"); ("label", JsString "Brand")];
                 JsObject true [("name", JsString "a")] ]);
      ("onlyListedAttributes", JsBoolean true) ].

Definition sampleWidget : Widget :=
  match connectCurrentRefinedValues sampleConfiguration with
  | Ok built => default (mkWidget JsUndefined false [] [] ∅) (widgetOf built)
  | Throw _ => mkWidget JsUndefined false [] [] ∅
  end.

Definition sampleCreateURL (state : list Refinement) : string :=
  String.concat "&" (map (λ r, (attributeName r ++ "=" ++ name r)%string) state).

(** A world with one helper, before [init]. *)
Definition sampleWorld : @World (list Refinement) unit :=
  {| helpers := λ _, {| state := sampleState; searches := 0 |};
     functions := [];
     _clearRefinementsAndSearch := None;
     rendered := [] |}.

Definition sampleInit : @InitOptions (list Refinement) unit :=
  {| init_helper := 0; init_createURL := sampleCreateURL; init_instantSearchInstance := () |}.

Definition sampleRender (state : list Refinement) : @RenderOptions unit (list Refinement) unit :=
  {| render_results := ();
     render_helper := 0;
     render_state := state;
     render_createURL := sampleCreateURL;
     render_instantSearchInstance := () |}.

(** [clearRefinementsAndSearch] for a list state: clear the state,
    restricted to the given attributes when there are any, and search. *)
Definition listClearRefinementsFromState (state : list Refinement) (restrictedTo : list string)
    : list Refinement :=
  if Nat.eqb (length restrictedTo) 0 then []
  else List.filter (λ r, indexOfString restrictedTo (attributeName r) =? -1) state.

(** [clearRefinementsAndSearch] for a list state: the helper adopts the
    cleared state and searches. *)
Definition listClearRefinementsAndSearch (helper : nat) (restrictedTo : list string)
    : @M (list Refinement) unit unit :=
  λ w,
    helperSearch helper
      (helperSetState helper
         (listClearRefinementsFromState (state (helpers w helper)) restrictedTo) w).2.

(** [getRefinements] for a list state, returning a new array. *)
Definition listRefinementsRef (results : unit) (state : list Refinement) (heap : list Cell)
    : nat * list Cell :=
  alloc (ArrayOfRefinements (listRefinements results state)) heap.

(** A world whose helpers all hold one state, before [init]. *)
Definition worldOf (current : list Refinement) : @World (list Refinement) unit :=
  {| helpers := λ _, {| state := current; searches := 0 |};
     functions := [];
     _clearRefinementsAndSearch := None;
     rendered := [] |}.

(** A state with a refinement of a type that is not recognized. *)
Definition strangeState : list Refinement :=
  [ facet "a" "red"; mkRefinement "range" "b" "m" PUndefined PUndefined ].

(** The error that [clearRefinementFromState] throws for a type. *)
Definition notHandled (type : string) : Error :=
  MkError ("clearRefinement: type " ++ type ++ " is not handled").


(** * Properties *)

(** ** Positions and [indexOf] *)

Lemma position_elem_of x l : is_Some (position x l) ↔ x ∈ l.
Proof.
  induction l as [|y l IH]; simpl.
  - split; [intros [? ?]; discriminate | intros ?%elem_of_nil; done].
  - destruct (String.eqb_spec y x) as [->|Hne].
    + split; [intros _; left | eauto].
    + rewrite fmap_is_Some, IH. split; [by right|].
      intros [?|?]%elem_of_cons; [congruence | done].
Qed.

Lemma position_None x l : position x l = None ↔ x ∉ l.
Proof. rewrite <- position_elem_of, eq_None_not_Some. done. Qed.

Lemma position_lt_length x l k : position x l = Some k → (k < length l)%nat.
Proof.
  revert k. induction l as [|y l IH]; simpl; intros k; [done|].
  destruct (String.eqb y x).
  - intros [= <-]. lia.
  - destruct (position x l) as [k'|]; simpl; [|done].
    intros [= <-]. specialize (IH k' eq_refl). lia.
Qed.

Lemma position_app x l1 l2 :
  position x (l1 ++ l2)
  = match position x l1 with
    | Some k => Some k
    | None => (λ k, length l1 + k)%nat <$> position x l2
    end.
Proof.
  induction l1 as [|y l1 IH]; simpl.
  - by destruct (position x l2).
  - destruct (String.eqb y x); [done|]. rewrite IH.
    destruct (position x l1); simpl; [done|]. by destruct (position x l2).
Qed.

Lemma indexOfString_position l x :
  indexOfString l x = from_option Z.of_nat (-1) (position x l).
Proof.
  unfold indexOfString. induction l as [|y l IH]; simpl; [done|].
  destruct (String.eqb y x); [done|]. rewrite IH.
  destruct (position x l) as [k|]; simpl; [|done].
  destruct (Z.eqb_spec (Z.of_nat k) (-1)); lia.
Qed.

Lemma indexOfString_absent l x : (indexOfString l x =? -1) = true ↔ x ∉ l.
Proof.
  rewrite indexOfString_position, <- position_None.
  destruct (position x l) as [k|]; simpl; [|done].
  split; [|done]. intros ?%Z.eqb_eq. lia.
Qed.

Lemma indexOfString_present l x : negb (indexOfString l x =? -1) = true ↔ x ∈ l.
Proof.
  rewrite negb_true_iff, <- not_true_iff_false, indexOfString_absent.
  split; [apply dec_stable | auto].
Qed.

(** Filtering keeps the relative positions of the names it keeps. *)
Lemma position_filter (p : string → bool) l x y i j :
  p x = true → p y = true →
  position x l = Some i → position y l = Some j →
  ∃ i' j',
    position x (List.filter p l) = Some i'
    ∧ position y (List.filter p l) = Some j'
    ∧ (i' ?= j')%nat = (i ?= j)%nat.
Proof.
  intros Hx Hy. revert i j.
  induction l as [|z l IH]; simpl; intros i j; [done|].
  destruct (String.eqb_spec z x) as [Hzx|Hzx];
    destruct (String.eqb_spec z y) as [Hzy|Hzy]; subst.
  - intros [= <-] [= <-]. rewrite Hy. simpl. rewrite String.eqb_refl. eauto.
  - intros [= <-] Hj. rewrite Hx. simpl. rewrite String.eqb_refl.
    destruct (String.eqb_spec x y); [done|].
    destruct (position y l) as [j0|] eqn:Hj0; simpl in Hj; [|done].
    injection Hj as <-.
    assert (is_Some (position y (List.filter p l))) as [j1 Hj1].
    { apply position_elem_of, list_elem_of_In, filter_In. split; [|done].
      apply list_elem_of_In, position_elem_of. eauto. }
    rewrite Hj1. simpl. eauto.
  - intros Hi [= <-]. rewrite Hy. simpl. rewrite String.eqb_refl.
    destruct (String.eqb_spec y x); [done|].
    destruct (position x l) as [i0|] eqn:Hi0; simpl in Hi; [|done].
    injection Hi as <-.
    assert (is_Some (position x (List.filter p l))) as [i1 Hi1].
    { apply position_elem_of, list_elem_of_In, filter_In. split; [|done].
      apply list_elem_of_In, position_elem_of. eauto. }
    rewrite Hi1. simpl. eauto.
  - destruct (position x l) as [i0|] eqn:Hi0; simpl; [|done].
    destruct (position y l) as [j0|] eqn:Hj0; simpl; [|done].
    intros [= <-] [= <-].
    destruct (IH i0 j0 eq_refl eq_refl) as (i' & j' & Hi' & Hj' & Hc).
    destruct (p z); simpl.
    + destruct (String.eqb_spec z x); [done|].
      destruct (String.eqb_spec z y); [done|].
      rewrite Hi', Hj'. simpl. eauto.
    + eauto.
Qed.

(** ** The collection of the unlisted attribute names *)

(** Looking a boolean up in an array of strings finds nothing. *)
Lemma indexOf_boolean_in_strings res b :
  indexOf strictEquals (map PString res) (PBoolean b) = -1.
Proof. induction res as [|y res IH]; simpl; [done|]. by rewrite IH. Qed.

Lemma shouldCollect_unlisted attributeNames res refinement :
  shouldCollect attributeNames res refinement
  = (indexOfString attributeNames (attributeName refinement) =? -1).
Proof.
  unfold shouldCollect. rewrite indexOf_boolean_in_strings. simpl.
  apply andb_true_r.
Qed.

Lemma otherAttributeNames_filter attributeNames refinements :
  otherAttributeNames attributeNames refinements
  = List.filter (unlisted attributeNames) (map attributeName refinements).
Proof.
  unfold otherAttributeNames.
  enough (∀ acc,
    fold_left
      (λ res refinement,
         if shouldCollect attributeNames res refinement
         then res ++ [attributeName refinement] else res) refinements acc
    = acc ++ List.filter (unlisted attributeNames) (map attributeName refinements))
    as Hgen by apply (Hgen []).
  induction refinements as [|r refinements IH]; intros acc; simpl.
  - by rewrite app_nil_r.
  - rewrite IH, shouldCollect_unlisted. unfold unlisted.
    destruct (indexOfString attributeNames (attributeName r) =? -1); [|done].
    by rewrite <- app_assoc.
Qed.

(** ** Sorting *)

Section Sort.
Context {A : Type} (compareFn : A → A → Z).

Lemma sortInsert_Permutation x l : sortInsert compareFn x l ≡ₚ x :: l.
Proof.
  induction l as [|y l IH]; simpl; [done|].
  destruct (compareFn x y <=? 0); [done|].
  rewrite IH. apply perm_swap.
Qed.

Lemma sort_Permutation l : sort compareFn l ≡ₚ l.
Proof.
  induction l as [|x l IH]; simpl; [done|].
  by rewrite sortInsert_Permutation, IH.
Qed.

Lemma sort_elem_of x l : x ∈ sort compareFn l ↔ x ∈ l.
Proof. by rewrite sort_Permutation. Qed.

(** A comparator that is total and transitive gives a sorted array. *)
Hypothesis compareFn_total : ∀ a b, 0 < compareFn a b → compareFn b a <= 0.
Hypothesis compareFn_trans :
  ∀ a b c, compareFn a b <= 0 → compareFn b c <= 0 → compareFn a c <= 0.

Lemma sortInsert_sorted x l :
  StronglySorted (λ a b, compareFn a b <= 0) l →
  StronglySorted (λ a b, compareFn a b <= 0) (sortInsert compareFn x l).
Proof.
  induction 1 as [|y l Hl IH Hy]; simpl.
  - repeat constructor.
  - destruct (Z.leb_spec (compareFn x y) 0) as [Hle|Hgt].
    + constructor; [by constructor|].
      constructor; [done|].
      eapply Forall_impl; [exact Hy|]. intros z Hz. simpl in Hz. eauto.
    + constructor; [done|].
      rewrite sortInsert_Permutation. constructor; [|done]. auto.
Qed.

Lemma sort_sorted l : StronglySorted (λ a b, compareFn a b <= 0) (sort compareFn l).
Proof.
  induction l as [|x l IH]; simpl; [constructor|].
  by apply sortInsert_sorted.
Qed.
End Sort.

(** The result of a sort depends on the comparator only through its
    values on the elements of the array. *)
Lemma sort_ext {A : Type} (f g : A → A → Z) (l : list A) :
  (∀ a b, a ∈ l → b ∈ l → f a b = g a b) → sort f l = sort g l.
Proof.
  induction l as [|x l IH]; intros Hfg; simpl; [done|].
  rewrite <- IH by (intros; apply Hfg; by right).
  assert (∀ y, y ∈ sort f l → f x y = g x y) as Hx.
  { intros y Hy%sort_elem_of. apply Hfg; [left | by right]. }
  revert Hx. generalize (sort f l). intros l0.
  induction l0 as [|y l0 IH0]; intros Hx; simpl; [done|].
  rewrite <- (Hx y) by left.
  destruct (f x y <=? 0); [done|].
  f_equal. apply IH0. intros z Hz. apply Hx. by right.
Qed.

(** ** The order of strings *)

Lemma ltb_lt s1 s2 : String.ltb s1 s2 = true ↔ OrderedTypeEx.String_as_OT.lt s1 s2.
Proof.
  rewrite <- OrderedTypeEx.String_as_OT.cmp_lt.
  unfold String.ltb, OrderedTypeEx.String_as_OT.cmp.
  destruct (String.compare s1 s2); split; done.
Qed.

Lemma ltb_irrefl s : String.ltb s s = false.
Proof.
  apply not_true_iff_false. intros Hlt%ltb_lt.
  by apply OrderedTypeEx.String_as_OT.lt_not_eq in Hlt.
Qed.

Lemma ltb_trans s1 s2 s3 :
  String.ltb s1 s2 = true → String.ltb s2 s3 = true → String.ltb s1 s3 = true.
Proof.
  rewrite !ltb_lt. apply OrderedTypeEx.String_as_OT.lt_trans.
Qed.

Lemma ltb_connected s1 s2 :
  String.eqb s1 s2 = false → String.ltb s1 s2 = false → String.ltb s2 s1 = true.
Proof.
  intros Hne%String.eqb_neq. unfold String.ltb.
  rewrite (String.compare_antisym s2 s1).
  destruct (String.compare s1 s2) eqn:Hc; simpl; [|done..].
  by apply String.compare_eq_iff in Hc.
Qed.

(** ** The comparator *)

Section Comparator.
Variables attributeNames others : list string.

Local Abbreviation key r :=
  (getRestrictedIndexForSort attributeNames others (attributeName r)).

Lemma compareRefinements_le a b :
  compareRefinements attributeNames others a b <= 0
  ↔ key a < key b
    ∨ (key a = key b ∧ (name a = name b ∨ String.ltb (name a) (name b) = true)).
Proof.
  unfold compareRefinements.
  destruct (Z.eqb_spec (key a) (key b)) as [Heq|Hne].
  - destruct (String.eqb_spec (name a) (name b)) as [Hn|Hn].
    + split; [auto | lia].
    + destruct (String.ltb (name a) (name b)) eqn:Hlt.
      * split; [auto | lia].
      * split; [lia|]. intros [?|[_ [?|?]]]; [lia|done..].
  - destruct (Z.ltb_spec (key a) (key b)).
    + split; [auto | lia].
    + split; [lia|]. intros [?|[? _]]; lia.
Qed.

Lemma compareRefinements_total a b :
  0 < compareRefinements attributeNames others a b →
  compareRefinements attributeNames others b a <= 0.
Proof.
  intros Hgt. apply compareRefinements_le.
  assert (¬ compareRefinements attributeNames others a b <= 0) as Hn by lia.
  rewrite compareRefinements_le in Hn.
  destruct (Z.lt_total (key a) (key b)) as [?|[Heq|?]]; [by destruct Hn; left | | by left].
  right. split; [done|].
  destruct (String.eqb_spec (name a) (name b)) as [Hname|Hname].
  - by left.
  - right. apply ltb_connected; [by apply String.eqb_neq|].
    apply not_true_iff_false. intros Hlt. apply Hn. right. auto.
Qed.

Lemma compareRefinements_trans a b c :
  compareRefinements attributeNames others a b <= 0 →
  compareRefinements attributeNames others b c <= 0 →
  compareRefinements attributeNames others a c <= 0.
Proof.
  rewrite !compareRefinements_le.
  intros [?|[Hab Hnab]] [?|[Hbc Hnbc]]; [left; lia..|].
  right. split; [lia|].
  destruct Hnab as [->|Hnab]; [done|].
  destruct Hnbc as [<-|Hnbc]; [by right|].
  right. by eapply ltb_trans.
Qed.

(** On a name of [attributeNames ++ others] the sort index is the
    position of the name in that concatenation. *)
Lemma getRestrictedIndexForSort_position x k :
  position x (attributeNames ++ others) = Some k →
  getRestrictedIndexForSort attributeNames others x = Z.of_nat k.
Proof.
  unfold getRestrictedIndexForSort.
  rewrite position_app, !indexOfString_position.
  destruct (position x attributeNames) as [i|]; simpl.
  - intros [= <-]. destruct (Z.eqb_spec (Z.of_nat i) (-1)); simpl; [lia | done].
  - destruct (position x others) as [j|]; simpl; [|done].
    intros [= <-]. lia.
Qed.
End Comparator.

(** ** The order of the output *)

Lemma StronglySorted_lookup {A : Type} (R : A → A → Prop) l i j a b :
  StronglySorted R l → (i < j)%nat → l !! i = Some a → l !! j = Some b → R a b.
Proof.
  intros Hl. revert i j. induction Hl as [|x l Hl IH Hx]; intros i j Hij Hi Hj; [done|].
  destruct j as [|j]; [lia|]. simpl in Hj. destruct i as [|i]; simpl in Hi.
  - injection Hi as ->. rewrite Forall_forall in Hx. apply Hx.
    by eapply list_elem_of_lookup_2.
  - eapply (IH i j); [lia | done..].
Qed.

Lemma StronglySorted_filter {A : Type} (R : A → A → Prop) (p : A → bool) l :
  StronglySorted R l → StronglySorted R (List.filter p l).
Proof.
  induction 1 as [|x l Hl IH Hx]; simpl; [constructor|].
  destruct (p x); [|done]. constructor; [done|].
  rewrite Forall_forall in *. intros y Hy%list_elem_of_In%filter_In.
  apply Hx, list_elem_of_In, Hy.
Qed.

Lemma StronglySorted_weaken {A : Type} (R R' : A → A → Prop) l :
  (∀ a b, a ∈ l → b ∈ l → R a b → R' a b) →
  StronglySorted R l → StronglySorted R' l.
Proof.
  intros Himp Hl. induction Hl as [|x l Hl IH Hx]; [constructor|].
  constructor.
  - apply IH. intros a b Ha Hb. apply Himp; by right.
  - rewrite Forall_forall in *. intros y Hy. apply Himp; [left | by right | auto].
Qed.

Lemma sortAndFilter_elem_of attributeNames others onlyListedAttributes refinements r :
  r ∈ sortAndFilter attributeNames others onlyListedAttributes refinements → r ∈ refinements.
Proof.
  unfold sortAndFilter.
  destruct (onlyListedAttributes && _).
  - intros [Hr _]%list_elem_of_In%filter_In. by apply list_elem_of_In, sort_elem_of in Hr.
  - by intros ?%sort_elem_of.
Qed.

Lemma sortAndFilter_sorted attributeNames others onlyListedAttributes refinements :
  StronglySorted (λ a b, compareRefinements attributeNames others a b <= 0)
    (sortAndFilter attributeNames others onlyListedAttributes refinements).
Proof.
  unfold sortAndFilter.
  pose proof (sort_sorted (compareRefinements attributeNames others)
    (compareRefinements_total attributeNames others)
    (compareRefinements_trans attributeNames others) refinements) as Hs.
  destruct (onlyListedAttributes && _); [by apply StronglySorted_filter | done].
Qed.

(** Every active refinement has a position in the order: its attribute
    name is configured or has been collected. *)
Lemma position_in_order attributeNames refinements r :
  r ∈ refinements →
  is_Some (position (attributeName r)
             (attributeNames ++ otherAttributeNames attributeNames refinements)).
Proof.
  intros Hr. apply position_elem_of, elem_of_app.
  destruct (decide (attributeName r ∈ attributeNames)) as [?|Hn]; [by left | right].
  rewrite otherAttributeNames_filter. apply list_elem_of_In, filter_In. split.
  - apply list_elem_of_In, list_elem_of_fmap. eauto.
  - by apply indexOfString_absent.
Qed.

Lemma compareRefinements_sortedBefore attributeNames refinements a b :
  a ∈ refinements → b ∈ refinements →
  compareRefinements attributeNames (otherAttributeNames attributeNames refinements) a b <= 0 →
  sortedBefore (attributeNames ++ otherAttributeNames attributeNames refinements) a b.
Proof.
  intros [ka Hka]%(position_in_order attributeNames) [kb Hkb]%(position_in_order attributeNames).
  rewrite compareRefinements_le.
  rewrite (getRestrictedIndexForSort_position _ _ _ _ Hka).
  rewrite (getRestrictedIndexForSort_position _ _ _ _ Hkb).
  intros Hle. exists ka, kb. split; [done|]. split; [done|].
  destruct Hle as [?|[? Hn]]; [left; lia | right].
  split; [lia|]. destruct Hn as [?|?%ltb_lt]; [by left | by right].
Qed.

Lemma getFilteredRefinements_sortedBefore {Results State : Type}
    (getRefinements : Results → State → list Refinement) results state
    attributeNames onlyListedAttributes :
  StronglySorted
    (sortedBefore
       (attributeNames ++ otherAttributeNames attributeNames (getRefinements results state)))
    (getFilteredRefinements getRefinements results state attributeNames onlyListedAttributes).
Proof.
  unfold getFilteredRefinements.
  eapply StronglySorted_weaken; [|apply sortAndFilter_sorted].
  intros a b Ha%sortAndFilter_elem_of Hb%sortAndFilter_elem_of.
  by apply compareRefinements_sortedBefore.
Qed.

(** In a sorted output a strictly smaller primary key comes first. *)
Lemma sortedBefore_key_lt order (out : list Refinement) i j a b ka kb :
  StronglySorted (sortedBefore order) out →
  out !! i = Some a → out !! j = Some b →
  position (attributeName a) order = Some ka →
  position (attributeName b) order = Some kb →
  (ka < kb)%nat → (i < j)%nat.
Proof.
  intros Hs Hi Hj Hka Hkb Hlt.
  destruct (Nat.lt_total i j) as [?|[->|Hji]]; [done | |].
  - rewrite Hi in Hj. injection Hj as ->. rewrite Hka in Hkb. injection Hkb as ->. lia.
  - destruct (StronglySorted_lookup _ _ _ _ _ _ Hs Hji Hj Hi) as (kb' & ka' & Hb' & Ha' & Hle).
    rewrite Hka in Ha'. rewrite Hkb in Hb'. injection Ha' as <-. injection Hb' as <-.
    destruct Hle as [?|[? _]]; lia.
Qed.

(** C1: the output of [getFilteredRefinements] is sorted by the position of
    the attribute name in [attributeNames ++ otherAttributeNames] and then
    by the name, ascending in lexicographic order.  So a refinement on a
    configured attribute comes before one on an unlisted attribute,
    configured attributes come in configured order, and unlisted ones in
    the order in which the active refinements first show them. *)
Theorem getFilteredRefinements_order {Results State : Type}
    (getRefinements : Results → State → list Refinement) results state
    attributeNames onlyListedAttributes :
  let raw := getRefinements results state in
  let order := attributeNames ++ otherAttributeNames attributeNames raw in
  let out :=
    getFilteredRefinements getRefinements results state attributeNames onlyListedAttributes in
  StronglySorted (sortedBefore order) out
  ∧ (∀ i j a b,
       out !! i = Some a → out !! j = Some b →
       attributeName a ∈ attributeNames → attributeName b ∉ attributeNames →
       (i < j)%nat)
  ∧ (∀ i j a b ka kb,
       out !! i = Some a → out !! j = Some b →
       position (attributeName a) attributeNames = Some ka →
       position (attributeName b) attributeNames = Some kb →
       (ka < kb)%nat → (i < j)%nat)
  ∧ (∀ i j a b ka kb,
       out !! i = Some a → out !! j = Some b →
       attributeName a ∉ attributeNames → attributeName b ∉ attributeNames →
       position (attributeName a) (map attributeName raw) = Some ka →
       position (attributeName b) (map attributeName raw) = Some kb →
       (ka < kb)%nat → (i < j)%nat).
Proof.
  intros raw order out.
  pose proof (getFilteredRefinements_sortedBefore getRefinements results state
                attributeNames onlyListedAttributes) as Hs.
  fold raw order out in Hs.
  assert (∀ i a, out !! i = Some a → a ∈ raw) as Hraw.
  { intros i a Hi. eapply sortAndFilter_elem_of, list_elem_of_lookup_2, Hi. }
  split; [done|]. split; [|split].
  - intros i j a b Hi Hj Ha Hb.
    apply position_elem_of in Ha as [ka Hka].
    destruct (position_in_order attributeNames raw b (Hraw _ _ Hj)) as [kb Hkb].
    pose proof (position_lt_length _ _ _ Hka) as Hlen.
    eapply (sortedBefore_key_lt order out i j a b ka kb Hs Hi Hj); [| done |].
    + unfold order. by rewrite position_app, Hka.
    + fold order in Hkb. unfold order in Hkb. rewrite position_app in Hkb.
      apply position_None in Hb. rewrite Hb in Hkb.
      destruct (position (attributeName b) (otherAttributeNames _ _));
        simpl in Hkb; [|done].
      injection Hkb as <-. lia.
  - intros i j a b ka kb Hi Hj Hka Hkb Hlt.
    eapply (sortedBefore_key_lt order out i j a b ka kb Hs Hi Hj); [| | done].
    + unfold order. by rewrite position_app, Hka.
    + unfold order. by rewrite position_app, Hkb.
  - intros i j a b ka kb Hi Hj Ha Hb Hka Hkb Hlt.
    destruct (position_filter (unlisted attributeNames) _ _ _ _ _
                (proj2 (indexOfString_absent _ _) Ha)
                (proj2 (indexOfString_absent _ _) Hb) Hka Hkb)
      as (ka' & kb' & Hka' & Hkb' & Hc).
    rewrite <- otherAttributeNames_filter in Hka', Hkb'. fold raw in Hka', Hkb'.
    apply Nat.compare_lt_iff in Hlt. rewrite <- Hc in Hlt. apply Nat.compare_lt_iff in Hlt.
    apply position_None in Ha, Hb.
    eapply (sortedBefore_key_lt order out i j a b
              (length attributeNames + ka') (length attributeNames + kb') Hs Hi Hj);
      [| | lia].
    + unfold order. by rewrite position_app, Ha, Hka'.
    + unfold order. by rewrite position_app, Hb, Hkb'.
Qed.

Lemma getFilteredRefinements_order_witness :
  getFilteredRefinements listRefinements () sampleState ["b"; "a"] false !! 0%nat
  = Some (facet "b" "m")
  ∧ getFilteredRefinements listRefinements () sampleState ["b"; "a"] false !! 3%nat
    = Some (facet "c" "x")
  ∧ (0 < 3)%nat.
Proof.
  split; [reflexivity|]. split; [reflexivity|].
  apply (proj1 (proj2 (getFilteredRefinements_order
                         listRefinements () sampleState ["b"; "a"] false))
           0%nat 3%nat (facet "b" "m") (facet "c" "x")).
  - reflexivity.
  - reflexivity.
  - simpl. apply list_elem_of_here.
  - simpl. intros Hin. apply (proj1 (elem_of_cons _ _ _)) in Hin.
    destruct Hin as [Hin|Hin]; [discriminate Hin|].
    apply (proj1 (elem_of_cons _ _ _)) in Hin.
    destruct Hin as [Hin|Hin]; [discriminate Hin|].
    exact (proj1 (elem_of_nil _) Hin).
Defined.

(** Configured attributes in configured order, then the unlisted ones as
    first seen; within an attribute, by name. *)
Example getFilteredRefinements_sample :
  map (λ r, (attributeName r, name r))
    (getFilteredRefinements listRefinements () sampleState ["b"; "a"] false)
  = [("b", "m"); ("a", "blue"); ("a", "red"); ("c", "x"); ("c", "y"); ("d", "z")].
Proof. reflexivity. Qed.

Example getFilteredRefinements_sample_no_attributes :
  map (λ r, (attributeName r, name r))
    (getFilteredRefinements listRefinements () sampleState [] true)
  = [("c", "x"); ("c", "y"); ("a", "blue"); ("a", "red"); ("d", "z"); ("b", "m")].
Proof. reflexivity. Qed.

(** ** The duplicates of [otherAttributeNames] *)

(** C2: [otherAttributeNames] is to hold each unlisted attribute name once;
    here two active refinements on the unlisted attribute [c] put the name
    in twice. *)
Theorem otherAttributeNames_duplicates :
  otherAttributeNames [] [facet "c" "x"; facet "c" "y"] = ["c"; "c"]
  ∧ ¬ NoDup (otherAttributeNames [] [facet "c" "x"; facet "c" "y"]).
Proof.
  split; [reflexivity|].
  intros Hnd. change (NoDup ["c"; "c"]) in Hnd.
  apply NoDup_cons in Hnd as [Hnotin _]. apply Hnotin. left.
Qed.

(** ** Filtering *)

Lemma filter_listed attributeNames (l : list Refinement) :
  List.filter
    (λ refinement, negb (indexOfString attributeNames (attributeName refinement) =? -1)) l
  = filter (λ r, attributeName r ∈ attributeNames) l.
Proof.
  induction l as [|r l IH]; simpl; [done|].
  rewrite filter_cons, IH.
  destruct (decide (attributeName r ∈ attributeNames)) as [Hin|Hin].
  - apply indexOfString_present in Hin. by rewrite Hin.
  - apply indexOfString_absent in Hin. by rewrite Hin.
Qed.

(** C5: with [onlyListedAttributes] and a non-empty [attributeNames] the
    output is the sorted list without the refinements whose attribute name
    is not in [attributeNames], which keeps the listed refinements of the
    input, each as often as it is there; with an empty [attributeNames], or
    without [onlyListedAttributes], the output is the whole sorted list, a
    permutation of the input. *)
Theorem getFilteredRefinements_filter {Results State : Type}
    (getRefinements : Results → State → list Refinement) results state
    attributeNames onlyListedAttributes :
  let raw := getRefinements results state in
  let sorted := getFilteredRefinements getRefinements results state attributeNames false in
  let out :=
    getFilteredRefinements getRefinements results state attributeNames onlyListedAttributes in
  sorted ≡ₚ raw
  ∧ (onlyListedAttributes = true → attributeNames ≠ [] →
     out = filter (λ r, attributeName r ∈ attributeNames) sorted
     ∧ out ≡ₚ filter (λ r, attributeName r ∈ attributeNames) raw)
  ∧ (onlyListedAttributes = true → attributeNames = [] → out = sorted)
  ∧ (onlyListedAttributes = false → out = sorted).
Proof.
  intros raw sorted out.
  assert (sorted ≡ₚ raw) as Hperm by apply sort_Permutation.
  split; [done|]. split; [|split].
  - intros -> Hne. subst out sorted. unfold getFilteredRefinements, sortAndFilter in *.
    destruct attributeNames as [|x attributeNames]; [done|]. simpl in *.
    rewrite filter_listed. split; [done|]. by rewrite Hperm.
  - by intros -> ->.
  - by intros ->.
Qed.

Lemma getFilteredRefinements_filter_witness :
  getFilteredRefinements listRefinements () sampleState ["b"; "a"] true
  = filter (λ r, attributeName r ∈ ["b"; "a"])
      (getFilteredRefinements listRefinements () sampleState ["b"; "a"] false)
  ∧ getFilteredRefinements listRefinements () sampleState ["b"; "a"] true
    ≡ₚ filter (λ r, attributeName r ∈ ["b"; "a"]) sampleState.
Proof.
  apply (proj1 (proj2 (getFilteredRefinements_filter
                         listRefinements () sampleState ["b"; "a"] true))).
  - reflexivity.
  - discriminate.
Defined.

(** ** Deduplicating the collection *)

Lemma position_snoc x a l :
  position x (l ++ [a])
  = match position x l with
    | Some k => Some k
    | None => if String.eqb a x then Some (length l) else None
    end.
Proof.
  rewrite position_app. destruct (position x l); [done|]. simpl.
  destruct (String.eqb a x); simpl; [f_equal; lia | done].
Qed.

Lemma sameOrder_nil : sameOrder [] [].
Proof. split; [done|]. intros x y i j i' j' Hx. discriminate Hx. Qed.

Lemma sameOrder_position l1 l2 x :
  sameOrder l1 l2 → position x l1 = None ↔ position x l2 = None.
Proof. intros [Hmem _]. by rewrite !position_None, Hmem. Qed.

Lemma sameOrder_snoc a l1 l2 : sameOrder l1 l2 → sameOrder (l1 ++ [a]) (l2 ++ [a]).
Proof.
  intros Hso. pose proof Hso as [Hmem Hord]. split.
  - intros x. by rewrite !elem_of_app, Hmem.
  - intros x y i j i' j'. rewrite !position_snoc.
    pose proof (sameOrder_position l1 l2 x Hso) as Hx.
    pose proof (sameOrder_position l1 l2 y Hso) as Hy.
    destruct (position x l1) as [i1|] eqn:Hx1, (position x l2) as [i2|] eqn:Hx2;
      try (by destruct Hx as [Hx Hx']; first [specialize (Hx eq_refl) | specialize (Hx' eq_refl)]);
    destruct (position y l1) as [j1|] eqn:Hy1, (position y l2) as [j2|] eqn:Hy2;
      try (by destruct Hy as [Hy Hy']; first [specialize (Hy eq_refl) | specialize (Hy' eq_refl)]);
    clear Hx Hy.
    + intros [= <-] [= <-] [= <-] [= <-]. by eapply Hord.
    + destruct (String.eqb a y); [|done]. intros [= <-] [= <-] [= <-] [= <-].
      apply position_lt_length in Hx1, Hx2.
      transitivity Lt; [|symmetry]; apply Nat.compare_lt_iff; lia.
    + destruct (String.eqb a x); [|done]. intros [= <-] [= <-] [= <-] [= <-].
      apply position_lt_length in Hy1, Hy2.
      transitivity Gt; [|symmetry]; apply Nat.compare_gt_iff; lia.
    + destruct (String.eqb a x); [|done]. destruct (String.eqb a y); [|done].
      intros [= <-] [= <-] [= <-] [= <-]. by rewrite !Nat.compare_refl.
Qed.

Lemma sameOrder_snoc_r a l1 l2 : sameOrder l1 l2 → a ∈ l1 → sameOrder l1 (l2 ++ [a]).
Proof.
  intros [Hmem Hord] Ha. split.
  - intros x. rewrite elem_of_app, <- Hmem, list_elem_of_singleton.
    split; [auto | by intros [?| ->]].
  - intros x y i j i' j' Hi Hj. rewrite !position_snoc.
    assert (is_Some (position x l2)) as [i2 Hi2].
    { apply position_elem_of, Hmem, position_elem_of. eauto. }
    assert (is_Some (position y l2)) as [j2 Hj2].
    { apply position_elem_of, Hmem, position_elem_of. eauto. }
    rewrite Hi2, Hj2. intros [= <-] [= <-]. by eapply Hord.
Qed.

Lemma otherAttributeNames_sameOrder attributeNames refinements :
  sameOrder (otherAttributeNamesDedup attributeNames refinements)
            (otherAttributeNames attributeNames refinements).
Proof.
  unfold otherAttributeNamesDedup, otherAttributeNames.
  enough (∀ acc1 acc2, sameOrder acc1 acc2 →
    sameOrder
      (fold_left
         (λ res refinement,
            if (indexOfString attributeNames (attributeName refinement) =? -1)
               && (indexOfString res (attributeName refinement) =? -1)
            then res ++ [attributeName refinement] else res) refinements acc1)
      (fold_left
         (λ res refinement,
            if shouldCollect attributeNames res refinement
            then res ++ [attributeName refinement] else res) refinements acc2))
    as Hgen by apply (Hgen [] [] sameOrder_nil).
  induction refinements as [|r refinements IH]; intros acc1 acc2 Hso; simpl; [done|].
  apply IH. rewrite shouldCollect_unlisted.
  destruct (indexOfString attributeNames (attributeName r) =? -1); simpl; [|done].
  destruct (indexOfString acc1 (attributeName r) =? -1) eqn:Hin.
  - by apply sameOrder_snoc.
  - apply sameOrder_snoc_r; [done|].
    apply indexOfString_present. by rewrite Hin.
Qed.

(** The deduplicated collection holds each unlisted attribute name of the
    active refinements, once. *)
Lemma otherAttributeNamesDedup_NoDup attributeNames refinements :
  NoDup (otherAttributeNamesDedup attributeNames refinements).
Proof.
  unfold otherAttributeNamesDedup.
  enough (∀ acc, NoDup acc →
    NoDup
      (fold_left
         (λ res refinement,
            if (indexOfString attributeNames (attributeName refinement) =? -1)
               && (indexOfString res (attributeName refinement) =? -1)
            then res ++ [attributeName refinement] else res) refinements acc))
    as Hgen by apply (Hgen [] (NoDup_nil_2 (A:=string))).
  induction refinements as [|r refinements IH]; intros acc Hnd; simpl; [done|].
  apply IH.
  destruct (indexOfString attributeNames (attributeName r) =? -1); simpl; [|done].
  destruct (indexOfString acc (attributeName r) =? -1) eqn:Hin; [|done].
  apply NoDup_app. split; [done|]. split; [|apply NoDup_singleton].
  intros x Hx ->%list_elem_of_singleton. by apply indexOfString_absent in Hin.
Qed.

Lemma otherAttributeNamesDedup_elem_of attributeNames refinements x :
  x ∈ otherAttributeNamesDedup attributeNames refinements
  ↔ x ∈ map attributeName refinements ∧ x ∉ attributeNames.
Proof.
  destruct (otherAttributeNames_sameOrder attributeNames refinements) as [-> _].
  rewrite otherAttributeNames_filter, list_elem_of_In, filter_In, <- list_elem_of_In.
  unfold unlisted. by rewrite indexOfString_absent.
Qed.

Lemma compare_add_l n i j : (n + i ?= n + j)%nat = (i ?= j)%nat.
Proof. induction n as [|n IH]; simpl; done. Qed.

Lemma getRestrictedIndexForSort_sameOrder attributeNames l1 l2 x y :
  sameOrder l1 l2 → x ∈ attributeNames ++ l1 → y ∈ attributeNames ++ l1 →
  (getRestrictedIndexForSort attributeNames l1 x ?= getRestrictedIndexForSort attributeNames l1 y)
  = (getRestrictedIndexForSort attributeNames l2 x ?= getRestrictedIndexForSort attributeNames l2 y).
Proof.
  intros Hso Hx Hy. pose proof Hso as [Hmem Hord].
  assert (∀ z, z ∈ attributeNames ++ l1 → z ∈ attributeNames ++ l2) as Hsub.
  { intros z. rewrite !elem_of_app, Hmem. done. }
  pose proof (Hsub _ Hx) as Hx'. pose proof (Hsub _ Hy) as Hy'.
  apply position_elem_of in Hx as [i Hi], Hy as [j Hj], Hx' as [i' Hi'], Hy' as [j' Hj'].
  rewrite (getRestrictedIndexForSort_position _ _ _ _ Hi),
    (getRestrictedIndexForSort_position _ _ _ _ Hj),
    (getRestrictedIndexForSort_position _ _ _ _ Hi'),
    (getRestrictedIndexForSort_position _ _ _ _ Hj').
  rewrite !Nat2Z.inj_compare.
  rewrite position_app in Hi, Hj, Hi', Hj'.
  destruct (position x attributeNames) as [kx|] eqn:Hkx;
    destruct (position y attributeNames) as [ky|] eqn:Hky;
    simplify_eq; [done| | |].
  - destruct (position y l1) as [j1|] eqn:Hj1; destruct (position y l2) as [j2|] eqn:Hj2;
      simplify_eq/=.
    apply position_lt_length in Hkx.
    transitivity Lt; [|symmetry]; apply Nat.compare_lt_iff; lia.
  - destruct (position x l1) as [i1|] eqn:Hi1; destruct (position x l2) as [i2|] eqn:Hi2;
      simplify_eq/=.
    apply position_lt_length in Hky.
    transitivity Gt; [|symmetry]; apply Nat.compare_gt_iff; lia.
  - destruct (position x l1) as [i1|] eqn:Hi1; destruct (position x l2) as [i2|] eqn:Hi2;
      destruct (position y l1) as [j1|] eqn:Hj1; destruct (position y l2) as [j2|] eqn:Hj2;
      simplify_eq/=.
    rewrite !compare_add_l. by eapply Hord.
Qed.

Lemma compareRefinements_sameOrder attributeNames l1 l2 a b :
  sameOrder l1 l2 →
  attributeName a ∈ attributeNames ++ l1 → attributeName b ∈ attributeNames ++ l1 →
  compareRefinements attributeNames l1 a b = compareRefinements attributeNames l2 a b.
Proof.
  intros Hso Ha Hb. unfold compareRefinements.
  rewrite !Z.eqb_compare, !Z.ltb_compare.
  by rewrite (getRestrictedIndexForSort_sameOrder attributeNames l1 l2 _ _ Hso Ha Hb).
Qed.

(** C10, as the code has it: on the active refinements the comparator
    gives the same results with the deduplicated collection as with the
    collection of the code, although the sort index of a name can differ
    between the two, and so the sorted and filtered outputs are equal. *)
Theorem getFilteredRefinements_dedup {Results State : Type}
    (getRefinements : Results → State → list Refinement) results state
    attributeNames onlyListedAttributes :
  let raw := getRefinements results state in
  (∀ a b, a ∈ raw → b ∈ raw →
     compareRefinements attributeNames (otherAttributeNamesDedup attributeNames raw) a b
     = compareRefinements attributeNames (otherAttributeNames attributeNames raw) a b)
  ∧ getFilteredRefinementsDedup getRefinements results state attributeNames onlyListedAttributes
    = getFilteredRefinements getRefinements results state attributeNames onlyListedAttributes.
Proof.
  intros raw.
  assert (∀ a b, a ∈ raw → b ∈ raw →
     compareRefinements attributeNames (otherAttributeNamesDedup attributeNames raw) a b
     = compareRefinements attributeNames (otherAttributeNames attributeNames raw) a b) as Hcmp.
  { intros a b Ha Hb.
    pose proof (otherAttributeNames_sameOrder attributeNames raw) as Hso.
    assert (∀ r, r ∈ raw →
      attributeName r ∈ attributeNames ++ otherAttributeNamesDedup attributeNames raw) as Hin.
    { intros r Hr. rewrite elem_of_app, (proj1 Hso), <- elem_of_app.
      by apply position_elem_of, position_in_order. }
    apply compareRefinements_sameOrder; auto. }
  split; [done|].
  unfold getFilteredRefinementsDedup, getFilteredRefinements, sortAndFilter. fold raw.
  by rewrite (sort_ext _ _ raw Hcmp).
Qed.

Lemma getFilteredRefinements_dedup_witness :
  compareRefinements ["b"; "a"] (otherAttributeNamesDedup ["b"; "a"] sampleState)
    (facet "d" "z") (facet "c" "y")
  = compareRefinements ["b"; "a"] (otherAttributeNames ["b"; "a"] sampleState)
      (facet "d" "z") (facet "c" "y").
Proof.
  apply (proj1 (getFilteredRefinements_dedup listRefinements () sampleState ["b"; "a"] false)).
  - unfold listRefinements, sampleState. do 3 apply list_elem_of_further. apply list_elem_of_here.
  - unfold listRefinements, sampleState. do 2 apply list_elem_of_further. apply list_elem_of_here.
Defined.

(** C10, as it is stated, fails on the sort indices themselves: with two
    active refinements on [c] before one on [d], the index of [d] is 2 with
    the collection of the code and 1 with the deduplicated one. *)
Lemma getRestrictedIndexForSort_dedup_differs :
  let raw := [facet "c" "x"; facet "c" "y"; facet "d" "z"] in
  getRestrictedIndexForSort [] (otherAttributeNames [] raw) "d" = 2
  ∧ getRestrictedIndexForSort [] (otherAttributeNamesDedup [] raw) "d" = 1
  ∧ getRestrictedIndexForSort [] (otherAttributeNames [] raw) "d"
    ≠ getRestrictedIndexForSort [] (otherAttributeNamesDedup [] raw) "d".
Proof. split; [reflexivity|]. split; [reflexivity|]. discriminate. Qed.

(** ** Validation of the configuration *)

Lemma isUndefined_true v : isUndefined v = true ↔ v = JsUndefined.
Proof. destruct v as [[]| | | | |]; simpl; split; congruence. Qed.

Lemma isString_true v : isString v = true ↔ stringValue v.
Proof.
  unfold stringValue.
  destruct v as [[]| | | | |]; simpl; split; try congruence; eauto;
    intros [? [?|?]]; congruence.
Qed.

Lemma isBoolean_true v : isBoolean v = true ↔ booleanValue v.
Proof.
  unfold booleanValue.
  destruct v as [[]| | | | |]; simpl; split; try congruence; eauto;
    intros [? [?|?]]; congruence.
Qed.

Lemma isFunction_true v : isFunction v = true ↔ ∃ f, v = JsFunction f.
Proof.
  destruct v as [[]| | | | |]; simpl; split; try congruence; eauto; by intros [? ?].
Qed.

Lemma isPlainObject_true v : isPlainObject v = true ↔ ∃ properties, v = JsObject true properties.
Proof.
  destruct v as [| | |plain properties| |]; simpl; split; try congruence;
    try by intros [? ?].
  - intros ->. eauto.
  - by intros [? [= -> _]].
Qed.

Lemma attributeOK_valid val : attributeOK true val = true ↔ validAttribute val.
Proof.
  unfold attributeOK, validAttribute. simpl.
  rewrite !andb_true_iff, !orb_true_iff.
  rewrite isPlainObject_true, !isUndefined_true, !isString_true, !isFunction_true.
  tauto.
Qed.

Lemma attributeOK_false val : attributeOK false val = false.
Proof. done. Qed.

Lemma fold_attributeOK elements res :
  fold_left attributeOK elements res = true
  ↔ res = true ∧ Forall validAttribute elements.
Proof.
  revert res. induction elements as [|val elements IH]; intros res; simpl.
  - split; [by intros -> | by intros [-> _]].
  - rewrite IH, Forall_cons. destruct res.
    + rewrite attributeOK_valid. tauto.
    + rewrite attributeOK_false. split; [by intros [? _] | by intros [? _]].
Qed.

Lemma showUsage_valid widgetParams :
  let params := withDefault widgetParams (JsObject true []) in
  showUsage (withDefault (getProperty params "attributes") (JsArray []))
            (withDefault (getProperty params "onlyListedAttributes") (JsBoolean false))
  = false
  ↔ validConfiguration widgetParams.
Proof.
  intros params. unfold showUsage, validConfiguration. fold params.
  generalize (withDefault (getProperty params "attributes") (JsArray [])).
  generalize (withDefault (getProperty params "onlyListedAttributes") (JsBoolean false)).
  intros only attributes. simpl.
  rewrite !orb_false_iff, !negb_false_iff, isBoolean_true.
  split.
  - intros [[_ Hok] Hb]. split; [|done].
    destruct attributes as [| |elements| | |]; simpl in Hok; try done.
    exists elements. split; [done|]. by apply fold_attributeOK in Hok as [_ ?].
  - intros [(elements & -> & Hall) Hb]. simpl. split; [|done]. split; [done|].
    by apply fold_attributeOK.
Qed.

(** The argument [null] apart, the factory goes by [showUsage]. *)
Lemma connectCurrentRefinedValues_cases widgetParams :
  widgetParams ≠ JsNull →
  let params := withDefault widgetParams (JsObject true []) in
  let attributes := withDefault (getProperty params "attributes") (JsArray []) in
  let onlyListedAttributes :=
    withDefault (getProperty params "onlyListedAttributes") (JsBoolean false) in
  connectCurrentRefinedValues widgetParams
  = if showUsage attributes onlyListedAttributes then Throw (MkError usage)
    else
      Ok {| built_widgetParams := params;
            built_onlyListedAttributes := onlyListedAttributes;
            built_attributeNames :=
              map (λ attribute, getProperty attribute "name") (elementsOf attributes);
            built_restrictedTo :=
              if truthy onlyListedAttributes
              then map (λ attribute, getProperty attribute "name") (elementsOf attributes)
              else [];
            built_attributesObj :=
              (fold_left assignAttribute (elementsOf attributes) (∅, None)).1;
            built_attributesObjPrototype :=
              (fold_left assignAttribute (elementsOf attributes) (∅, None)).2 |}.
Proof.
  intros Hnull. unfold connectCurrentRefinedValues.
  assert (withDefault widgetParams (JsObject true []) ≠ JsNull) as Hnull'.
  { unfold withDefault. by destruct (isUndefined widgetParams). }
  revert Hnull'. generalize (withDefault widgetParams (JsObject true [])). intros params Hnull'.
  cbv zeta. by destruct params as [[]| | | | |].
Qed.

(** C4, as the code has it: for every argument but [null] the factory
    throws the usage error exactly when the configuration is not valid and
    returns the values of a widget when it is valid, where a string or a
    boolean is the primitive or its wrapper object; for [null] it throws a
    [TypeError]. *)
Theorem connectCurrentRefinedValues_usage widgetParams :
  (widgetParams = JsNull → connectCurrentRefinedValues widgetParams = Throw TypeError)
  ∧ (widgetParams ≠ JsNull →
     (connectCurrentRefinedValues widgetParams = Throw (MkError usage)
      ↔ ¬ validConfiguration widgetParams)
     ∧ (validConfiguration widgetParams →
        ∃ built, connectCurrentRefinedValues widgetParams = Ok built)).
Proof.
  split; [by intros ->|].
  intros Hnull. pose proof (showUsage_valid widgetParams) as Hvalid. simpl in Hvalid.
  rewrite (connectCurrentRefinedValues_cases widgetParams Hnull). cbv zeta.
  destruct (showUsage _ _) eqn:Hshow.
  - assert (¬ validConfiguration widgetParams) as Hinvalid.
    { intros Hv. apply Hvalid in Hv. congruence. }
    split; [by split | done].
  - assert (validConfiguration widgetParams) as Hv by by apply Hvalid.
    split; [split; [discriminate | done] | eauto].
Qed.

Lemma connectCurrentRefinedValues_usage_witness :
  ∃ built, connectCurrentRefinedValues sampleConfiguration = Ok built.
Proof.
  apply (proj2 (proj2 (connectCurrentRefinedValues_usage sampleConfiguration)
                  ltac:(discriminate))).
  split.
  - eexists. split; [reflexivity|].
    apply Forall_cons_2; [|apply Forall_cons_2; [|apply Forall_nil_2]].
    + split; [eexists; reflexivity|].
      split; [eexists; left; reflexivity|].
      split; [right; eexists; left; reflexivity|].
      split; left; reflexivity.
    + split; [eexists; reflexivity|].
      split; [eexists; left; reflexivity|].
      split; [left; reflexivity|].
      split; left; reflexivity.
  - eexists. left. reflexivity.
Defined.

(** C4, as it is stated, fails at [null]: the checks of a valid
    configuration hold of it (nothing can be read from it, so the defaults
    stand), and the factory throws, with a [TypeError] and not with the
    usage error. *)
Lemma connectCurrentRefinedValues_null :
  connectCurrentRefinedValues JsNull = Throw TypeError
  ∧ validConfiguration JsNull
  ∧ ¬ ((connectCurrentRefinedValues JsNull = Throw (MkError usage)
        ↔ ¬ validConfiguration JsNull)
       ∧ (validConfiguration JsNull →
          ∃ built, connectCurrentRefinedValues JsNull = Ok built)).
Proof.
  assert (validConfiguration JsNull) as Hvalid.
  { split; [exists []; split; [reflexivity | apply Forall_nil_2]|].
    exists false. by left. }
  split; [reflexivity|]. split; [done|].
  intros [_ Hok]. destruct (Hok Hvalid) as [built Hbuilt]. discriminate Hbuilt.
Qed.

(** Configurations that are refused, configurations with wrapper objects
    that are accepted, and the argument [null]. *)
Example connectCurrentRefinedValues_refused :
  connectCurrentRefinedValues (JsObject true [("attributes", JsString "color")])
  = Throw (MkError usage)
  ∧ connectCurrentRefinedValues (JsObject true [("attributes", JsNull)])
    = Throw (MkError usage)
  ∧ connectCurrentRefinedValues (JsObject true [("onlyListedAttributes", JsString "yes")])
    = Throw (MkError usage)
  ∧ connectCurrentRefinedValues
      (JsObject true [("attributes", JsArray [JsObject true [("label", JsString "Colour")]])])
    = Throw (MkError usage)
  ∧ connectCurrentRefinedValues
      (JsObject true [("attributes", JsArray [JsObject false [("name", JsString "color")]])])
    = Throw (MkError usage)
  ∧ connectCurrentRefinedValues JsNull = Throw TypeError.
Proof. repeat split; reflexivity. Qed.

Example connectCurrentRefinedValues_wrappers :
  (∃ built,
     connectCurrentRefinedValues
       (JsObject true [("attributes", JsArray [JsObject true [("name", JsString "a")]]);
                       ("onlyListedAttributes", JsBooleanObject false)])
     = Ok built
     ∧ built_restrictedTo built = [JsString "a"])
  ∧ (∃ built,
       connectCurrentRefinedValues
         (JsObject true [("attributes", JsArray [JsObject true [("name", JsStringObject "a")]])])
       = Ok built
       ∧ built_attributeNames built = [JsStringObject "a"]
       ∧ built_attributesObj built !! "a" = Some (JsObject true [("name", JsStringObject "a")])
       ∧ widgetOf built = None).
Proof.
  split; eexists; (split; [reflexivity|]); repeat split; reflexivity.
Qed.

(** ** Clearing one refinement *)

Lemma unrecognized_type (ty : string) :
  ty ∉ recognizedTypes →
  String.eqb ty "facet" = false ∧ String.eqb ty "disjunctive" = false
  ∧ String.eqb ty "hierarchical" = false ∧ String.eqb ty "exclude" = false
  ∧ String.eqb ty "numeric" = false ∧ String.eqb ty "tag" = false.
Proof.
  intros Hnot. unfold recognizedTypes in Hnot.
  repeat split; apply String.eqb_neq; intros ->; apply Hnot;
    repeat first [apply list_elem_of_here | apply list_elem_of_further].
Qed.

(** C3: [clearRefinementFromState] calls, for each of the six types, the
    removal method of that type with the fields of the refinement (for
    [numeric]: attribute name, operator and numeric value), and for any
    other type throws without calling the state; [clearRefinement] then
    leaves the helper and everything else as they were. *)
Theorem clearRefinementFromState_dispatch {State Instance : Type} `{SearchState State}
    (state : State) (refinement : Refinement) :
  (type refinement = "numeric" →
   clearRefinementFromState state refinement
   = Ok (removeNumericRefinement state (attributeName refinement)
           (operator refinement) (numericValue refinement)))
  ∧ (type refinement = "facet" →
     clearRefinementFromState state refinement
     = Ok (removeFacetRefinement state (attributeName refinement) (name refinement)))
  ∧ (type refinement = "disjunctive" →
     clearRefinementFromState state refinement
     = Ok (removeDisjunctiveFacetRefinement state (attributeName refinement) (name refinement)))
  ∧ (type refinement = "hierarchical" →
     clearRefinementFromState state refinement
     = Ok (clearRefinements state (attributeName refinement)))
  ∧ (type refinement = "exclude" →
     clearRefinementFromState state refinement
     = Ok (removeExcludeRefinement state (attributeName refinement) (name refinement)))
  ∧ (type refinement = "tag" →
     clearRefinementFromState state refinement
     = Ok (removeTagRefinement state (name refinement)))
  ∧ (type refinement ∉ recognizedTypes →
     clearRefinementFromState state refinement
     = Throw (MkError ("clearRefinement: type " ++ type refinement ++ " is not handled"))
     ∧ ∀ (calls : list StateCall) (helper : nat) (w : @World State Instance),
         clearRefinementFromState calls refinement
         = Throw (MkError ("clearRefinement: type " ++ type refinement ++ " is not handled"))
         ∧ clearRefinement helper refinement w
           = (Throw (MkError ("clearRefinement: type " ++ type refinement ++ " is not handled")),
              w)).
Proof.
  unfold clearRefinement, clearRefinementFromState.
  do 6 (split; [intros ->; reflexivity|]).
  intros (-> & -> & -> & -> & -> & ->)%unrecognized_type.
  split; [reflexivity|]. intros calls helper w. split; reflexivity.
Qed.

Lemma clearRefinementFromState_dispatch_witness :
  clearRefinementFromState (State:=list StateCall) [] (numeric "price" ">=" 10)
  = Ok [RemoveNumericRefinement "price" (PString ">=") (PNumber 10)].
Proof.
  exact (proj1 (clearRefinementFromState_dispatch (State:=list StateCall) (Instance:=unit)
                  [] (numeric "price" ">=" 10)) eq_refl).
Defined.

(** ** The rendering passes *)

Lemma mapResult_lookup {A B : Type} (f : A → Result B) l ys :
  mapResult f l = Ok ys →
  length ys = length l
  ∧ ∀ (i : nat) x, l !! i = Some x → ∃ y, f x = Ok y ∧ ys !! i = Some y.
Proof.
  revert ys. induction l as [|x l IH]; simpl; intros ys.
  - intros [= <-]. split; [done|]. intros i x Hx. discriminate Hx.
  - destruct (f x) as [y|e] eqn:Hfx; [|done].
    destruct (mapResult f l) as [ys'|e]; simpl; [|done].
    intros [= <-]. destruct (IH ys' eq_refl) as [Hlen Hlook].
    split; [simpl; by rewrite Hlen|].
    intros [|i] x'; simpl.
    + intros [= <-]. eauto.
    + apply Hlook.
Qed.

Lemma mapResult_Ok {A B : Type} (f : A → Result B) l :
  Forall (λ x, ∃ y, f x = Ok y) l → ∃ ys, mapResult f l = Ok ys.
Proof.
  induction 1 as [|x l [y Hy] _ [ys Hys]]; simpl; [eauto|].
  rewrite Hy, Hys. simpl. eauto.
Qed.

Section RenderingProperties.
Context {Results State Instance : Type} `{SearchState State}.
Variable getRefinements : Results → State → list Refinement.
Variable clearRefinementsFromState : State → list string → State.
Variable emptyObject : Results.
Variable clearRefinementsAndSearch : nat → list string → @M State Instance unit.

(** A callback that leaves the world alone maps like [mapResult]. *)
Lemma mapM_pure {A B : Type} (f : A → @M State Instance B) (g : A → Result B) l (w : @World State Instance) :
  (∀ x, f x w = (g x, w)) → mapM f l w = (mapResult g l, w).
Proof.
  intros Hf. induction l as [|x l IH]; simpl; [done|].
  unfold mbind, M_bind. rewrite Hf. destruct (g x) as [y|e]; [|done].
  rewrite IH. by destruct (mapResult g l).
Qed.

(** Binding one function per element appends the function objects and
    returns their references, in order. *)
Lemma mapM_bindFunction {A : Type} (c : A → Closure) l (w : @World State Instance) :
  mapM (λ x, bindFunction (c x)) l w
  = (Ok (seq (length (functions w)) (length l)),
     {| helpers := helpers w;
        functions := functions w ++ map c l;
        _clearRefinementsAndSearch := _clearRefinementsAndSearch w;
        rendered := rendered w |}).
Proof.
  revert w. induction l as [|x l IH]; intros w; simpl.
  - destruct w. simpl. by rewrite app_nil_r.
  - unfold mbind, M_bind. unfold bindFunction at 1. rewrite IH. simpl.
    rewrite length_app, <- app_assoc. simpl.
    by replace (length (functions w) + 1)%nat with (S (length (functions w))) by lia.
Qed.

(** [init], in one equation. *)
Lemma init_unfold widget options (w : @World State Instance) :
  let helper := init_helper options in
  let current := state (helpers w helper) in
  let refinements :=
    getFilteredRefinements getRefinements emptyObject current
      (widget_attributeNames widget) (widget_onlyListedAttributes widget) in
  let clearAll := BoundClearRefinementsAndSearch helper (widget_restrictedTo widget) in
  init getRefinements clearRefinementsFromState emptyObject widget options w
  = match mapResult
            (λ r, resultMap (init_createURL options) (clearRefinementFromState current r))
            refinements with
    | Ok urls =>
        (Ok (),
         {| helpers := helpers w;
            functions :=
              (functions w ++ [clearAll]) ++ map (BoundClearRefinement helper) refinements;
            _clearRefinementsAndSearch := Some (length (functions w));
            rendered :=
              rendered w
              ++ [(renderingOptions widget (VFunction (length (functions w)))
                     (init_createURL options
                        (clearRefinementsFromState current (widget_restrictedTo widget)))
                     (seq (length (functions w ++ [clearAll])) (length refinements))
                     urls refinements (init_instantSearchInstance options),
                   true)] |})
    | Throw e =>
        (Throw e,
         {| helpers := helpers w;
            functions := functions w ++ [clearAll];
            _clearRefinementsAndSearch := Some (length (functions w));
            rendered := rendered w |})
    end.
Proof.
  intros helper current refinements clearAll.
  unfold init. fold helper.
  unfold mbind at 1, M_bind at 1, bindFunction at 1. fold clearAll.
  unfold mbind at 1, M_bind at 1, setClearRefinementsAndSearch at 1.
  unfold mbind at 1, M_bind at 1, helperState at 1. cbn [helpers].
  unfold mbind at 1, M_bind at 1, helperState at 1. cbn [helpers state].
  fold current. fold refinements.
  unfold mbind at 1, M_bind at 1.
  rewrite (mapM_pure _
    (λ r, resultMap (init_createURL options) (clearRefinementFromState current r))).
  2:{ intros r. unfold mbind, M_bind, helperState, liftResult. cbn [helpers].
      fold current. by destruct (clearRefinementFromState current r). }
  destruct (mapResult _ refinements) as [urls|e]; [|done].
  unfold mbind at 1, M_bind at 1. rewrite mapM_bindFunction. cbn [functions helpers rendered _clearRefinementsAndSearch].
  unfold mbind at 1, M_bind at 1, getClearRefinementsAndSearch. cbn.
  reflexivity.
Qed.

(** [render], in one equation. *)
Lemma render_unfold widget options (w : @World State Instance) :
  let helper := render_helper options in
  let current := render_state options in
  let refinements :=
    getFilteredRefinements getRefinements (render_results options) current
      (widget_attributeNames widget) (widget_onlyListedAttributes widget) in
  render getRefinements clearRefinementsFromState widget options w
  = match mapResult
            (λ r, resultMap (render_createURL options) (clearRefinementFromState current r))
            refinements with
    | Ok urls =>
        (Ok (),
         {| helpers := helpers w;
            functions := functions w ++ map (BoundClearRefinement helper) refinements;
            _clearRefinementsAndSearch := _clearRefinementsAndSearch w;
            rendered :=
              rendered w
              ++ [(renderingOptions widget
                     (from_option VFunction VUndefined (_clearRefinementsAndSearch w))
                     (render_createURL options
                        (clearRefinementsFromState current (widget_restrictedTo widget)))
                     (seq (length (functions w)) (length refinements))
                     urls refinements (render_instantSearchInstance options),
                   false)] |})
    | Throw e => (Throw e, w)
    end.
Proof.
  intros helper current refinements.
  unfold render. fold helper current refinements.
  unfold mbind at 1, M_bind at 1.
  rewrite (mapM_pure _
    (λ r, resultMap (render_createURL options) (clearRefinementFromState current r))).
  2:{ intros r. unfold mbind, M_bind, liftResult.
      by destruct (clearRefinementFromState current r). }
  destruct (mapResult _ refinements) as [urls|e]; [|done].
  unfold mbind at 1, M_bind at 1. rewrite mapM_bindFunction.
  unfold mbind at 1, M_bind at 1, getClearRefinementsAndSearch. cbn.
  reflexivity.
Qed.

Lemma recognized_Ok (current : State) refinement :
  type refinement ∈ recognizedTypes →
  ∃ cleared, clearRefinementFromState current refinement = Ok cleared.
Proof.
  unfold recognizedTypes, clearRefinementFromState. intros Hin.
  repeat (apply elem_of_cons in Hin as [->|Hin]; [simpl; eauto|]).
  by apply elem_of_nil in Hin.
Qed.

Lemma urls_Ok (createURL : State → string) (current : State) refinements :
  Forall (λ r, type r ∈ recognizedTypes) refinements →
  ∃ urls,
    mapResult (λ r, resultMap createURL (clearRefinementFromState current r)) refinements
    = Ok urls.
Proof.
  intros Hall. apply mapResult_Ok. eapply Forall_impl; [exact Hall|].
  intros r [cleared Hr]%(recognized_Ok current). rewrite Hr. simpl. eauto.
Qed.

(** The arrays built from one list of refinements are aligned. *)
Lemma aligned_built createURL (current : State) helper (w : @World State Instance) widget
    clearAllClick clearAllURL urls refinements instance before :
  mapResult (λ r, resultMap createURL (clearRefinementFromState current r)) refinements
  = Ok urls →
  functions w = before ++ map (BoundClearRefinement helper) refinements →
  aligned clearRefinementsAndSearch createURL current helper w
    (renderingOptions widget clearAllClick clearAllURL
       (seq (length before) (length refinements)) urls refinements instance).
Proof.
  intros [Hlen Hurls]%mapResult_lookup Hfunctions.
  exists refinements, urls, (seq (length before) (length refinements)).
  do 3 (split; [reflexivity|]). split; [done|]. split; [apply length_seq|].
  intros i r Hi. split.
  - destruct (Hurls i r Hi) as (url & Hurl & Hlook).
    destruct (clearRefinementFromState current r) as [cleared|e]; simpl in Hurl; [|done].
    injection Hurl as <-. eauto.
  - exists (length before + i)%nat.
    assert (functions w !! (length before + i)%nat = Some (BoundClearRefinement helper r))
      as Hf.
    { rewrite Hfunctions, lookup_app_r by lia.
      replace (length before + i - length before)%nat with i by lia.
      by rewrite list_lookup_fmap, Hi. }
    split; [|split; [done|]].
    + apply lookup_seq_lt. by eapply lookup_lt_Some.
    + unfold callFunction. by rewrite Hf.
Qed.

(** C6: in the rendering options that [init] and [render] pass to the
    render function, [refinements], [clearRefinementURLs] and
    [clearRefinementClicks] have one length, and at each index the URL is
    that of the state with the refinement cleared and the click is the
    function that clears that refinement.  A pass that throws never
    reaches the render function, and a pass throws only on a refinement
    of a type that is not recognized. *)
Theorem rendering_options_aligned widget :
  (∀ options (w : @World State Instance),
     match init getRefinements clearRefinementsFromState emptyObject widget options w with
     | (Ok _, w') =>
         ∃ params,
           rendered w' = rendered w ++ [(params, true)]
           ∧ aligned clearRefinementsAndSearch (init_createURL options)
               (state (helpers w (init_helper options))) (init_helper options) w' params
     | (Throw _, w') => rendered w' = rendered w
     end)
  ∧ (∀ options (w : @World State Instance),
       match render getRefinements clearRefinementsFromState widget options w with
       | (Ok _, w') =>
           ∃ params,
             rendered w' = rendered w ++ [(params, false)]
             ∧ aligned clearRefinementsAndSearch (render_createURL options)
                 (render_state options) (render_helper options) w' params
       | (Throw _, w') => rendered w' = rendered w
       end)
  ∧ (∀ options (w : @World State Instance),
       Forall (λ r, type r ∈ recognizedTypes)
         (getFilteredRefinements getRefinements emptyObject
            (state (helpers w (init_helper options)))
            (widget_attributeNames widget) (widget_onlyListedAttributes widget)) →
       ∃ w', init getRefinements clearRefinementsFromState emptyObject widget options w
             = (Ok (), w'))
  ∧ (∀ options (w : @World State Instance),
       Forall (λ r, type r ∈ recognizedTypes)
         (getFilteredRefinements getRefinements (render_results options)
            (render_state options)
            (widget_attributeNames widget) (widget_onlyListedAttributes widget)) →
       ∃ w', render getRefinements clearRefinementsFromState widget options w
             = (Ok (), w')).
Proof.
  split; [|split; [|split]].
  - intros options w. rewrite init_unfold.
    destruct (mapResult _ _) as [urls|e] eqn:Hurls; [|done].
    eexists. split; [reflexivity|].
    eapply aligned_built; [exact Hurls | reflexivity].
  - intros options w. rewrite render_unfold.
    destruct (mapResult _ _) as [urls|e] eqn:Hurls; [|done].
    eexists. split; [reflexivity|].
    eapply aligned_built; [exact Hurls | reflexivity].
  - intros options w Hall. rewrite init_unfold.
    destruct (urls_Ok (init_createURL options)
                (state (helpers w (init_helper options))) _ Hall) as [urls ->].
    eauto.
  - intros options w Hall. rewrite render_unfold.
    destruct (urls_Ok (render_createURL options) (render_state options) _ Hall)
      as [urls ->].
    eauto.
Qed.

(** C7: the rendering options that [init] and [render] pass to the
    render function have the eight properties [attributes],
    [clearAllClick], [clearAllURL], [clearRefinementClicks],
    [clearRefinementURLs], [refinements], [instantSearchInstance] and
    [widgetParams], and no property [clearAllPosition]. *)
Theorem rendering_options_properties widget :
  (∀ options (w : @World State Instance),
     match init getRefinements clearRefinementsFromState emptyObject widget options w with
     | (Ok _, w') =>
         ∃ params,
           rendered w' = rendered w ++ [(params, true)]
           ∧ map fst params
             = [ "attributes"; "clearAllClick"; "clearAllURL"; "clearRefinementClicks";
                 "clearRefinementURLs"; "refinements"; "instantSearchInstance";
                 "widgetParams" ]
           ∧ lookupProperty params "clearAllPosition" = None
     | (Throw _, w') => rendered w' = rendered w
     end)
  ∧ (∀ options (w : @World State Instance),
       match render getRefinements clearRefinementsFromState widget options w with
       | (Ok _, w') =>
           ∃ params,
             rendered w' = rendered w ++ [(params, false)]
             ∧ map fst params
               = [ "attributes"; "clearAllClick"; "clearAllURL"; "clearRefinementClicks";
                   "clearRefinementURLs"; "refinements"; "instantSearchInstance";
                   "widgetParams" ]
             ∧ lookupProperty params "clearAllPosition" = None
       | (Throw _, w') => rendered w' = rendered w
       end).
Proof.
  split; intros options w.
  - rewrite init_unfold. destruct (mapResult _ _) as [urls|e]; [|done].
    eexists. split; [reflexivity|]. split; reflexivity.
  - rewrite render_unfold. destruct (mapResult _ _) as [urls|e]; [|done].
    eexists. split; [reflexivity|]. split; reflexivity.
Qed.

(** What one pass of [render] does to a world whose widget has a cached
    clear-all function [f0]. *)
Lemma render_pass widget options (w : @World State Instance) f0 :
  _clearRefinementsAndSearch w = Some f0 →
  let w' := (render getRefinements clearRefinementsFromState widget options w).2 in
  _clearRefinementsAndSearch w' = Some f0
  ∧ (∃ clicks, functions w' = functions w ++ clicks ∧ Forall isBoundClearRefinement clicks)
  ∧ ∃ calls,
      rendered w' = rendered w ++ calls
      ∧ Forall (λ call, call.2 = false
                        ∧ lookupProperty call.1 "clearAllClick" = Some (VFunction f0)) calls
      ∧ (Forall (λ r, type r ∈ recognizedTypes)
           (getFilteredRefinements getRefinements (render_results options)
              (render_state options)
              (widget_attributeNames widget) (widget_onlyListedAttributes widget)) →
         length calls = 1%nat).
Proof.
  intros Hf0 w'. subst w'. rewrite render_unfold.
  destruct (mapResult _ _) as [urls|e] eqn:Hurls; simpl.
  - split; [done|]. split.
    + eexists. split; [reflexivity|]. apply Forall_fmap, Forall_true. done.
    + eexists. split; [reflexivity|]. split; [|done].
      apply Forall_singleton. simpl. by rewrite Hf0.
  - split; [done|]. split.
    + exists []. by rewrite app_nil_r.
    + exists []. rewrite app_nil_r. split; [done|]. split; [done|].
      intros Hall.
      destruct (urls_Ok (render_createURL options) (render_state options) _ Hall)
        as [urls Hok].
      congruence.
Qed.

Lemma renderPasses_cached widget passes (w : @World State Instance) f0 :
  _clearRefinementsAndSearch w = Some f0 →
  let w' := renderPasses getRefinements clearRefinementsFromState widget passes w in
  _clearRefinementsAndSearch w' = Some f0
  ∧ (∃ clicks, functions w' = functions w ++ clicks ∧ Forall isBoundClearRefinement clicks)
  ∧ ∃ calls,
      rendered w' = rendered w ++ calls
      ∧ Forall (λ call, call.2 = false
                        ∧ lookupProperty call.1 "clearAllClick" = Some (VFunction f0)) calls
      ∧ (Forall (λ options,
                   Forall (λ r, type r ∈ recognizedTypes)
                     (getFilteredRefinements getRefinements (render_results options)
                        (render_state options)
                        (widget_attributeNames widget) (widget_onlyListedAttributes widget)))
           passes →
         length calls = length passes).
Proof.
  revert w. induction passes as [|options passes IH]; intros w Hf0; simpl.
  - split; [done|]. split; [exists []; by rewrite app_nil_r|].
    exists []. by rewrite app_nil_r.
  - destruct (render_pass widget options w f0 Hf0)
      as (Hf1 & (clicks1 & Hfun1 & Hclicks1) & (calls1 & Hren1 & Hcalls1 & Hlen1)).
    destruct (IH _ Hf1)
      as (Hf2 & (clicks2 & Hfun2 & Hclicks2) & (calls2 & Hren2 & Hcalls2 & Hlen2)).
    split; [done|]. split.
    + exists (clicks1 ++ clicks2). rewrite Hfun2, Hfun1, <- app_assoc.
      split; [done|]. by apply Forall_app.
    + exists (calls1 ++ calls2). rewrite Hren2, Hren1, <- app_assoc.
      split; [done|]. split; [by apply Forall_app|].
      intros [Hhere Hrest]%Forall_cons.
      rewrite length_app, (Hlen1 Hhere), (Hlen2 Hrest). done.
Qed.

Lemma urls_Ok_recognized (createURL : State → string) (current : State) refinements urls :
  mapResult (λ r, resultMap createURL (clearRefinementFromState current r)) refinements
  = Ok urls →
  Forall (λ r, type r ∈ recognizedTypes) refinements.
Proof.
  intros [_ Hlook]%mapResult_lookup. apply Forall_lookup. intros i r Hi.
  destruct (Hlook i r Hi) as (url & Hurl & _).
  destruct (decide (type r ∈ recognizedTypes)) as [|Hnot]; [done|].
  apply unrecognized_type in Hnot as (Hf & Hd & Hh & He & Hn & Ht).
  unfold clearRefinementFromState in Hurl.
  rewrite Hf, Hd, Hh, He, Hn, Ht in Hurl. discriminate Hurl.
Qed.

(** C8: when every refinement to show has a recognized type, [init]
    returns: it has collected the refinements of [helper.state] with the
    empty object for the results, made one function object of
    [clearRefinementsAndSearch], kept it in [_clearRefinementsAndSearch]
    and called the render function once, with this function as
    [clearAllClick] and [true] for the first rendering.  Every later pass of
    [render] calls the render function with [false] and, as
    [clearAllClick], the reference of that same function object, which no
    pass makes again; a pass whose refinements have recognized types calls
    it exactly once.  When some refinement has another type, [init] throws
    without calling the render function. *)
Theorem init_then_render widget options (w : @World State Instance) :
  let helper := init_helper options in
  let f0 := length (functions w) in
  let clearAll := BoundClearRefinementsAndSearch helper (widget_restrictedTo widget) in
  let refinements :=
    getFilteredRefinements getRefinements emptyObject (state (helpers w helper))
      (widget_attributeNames widget) (widget_onlyListedAttributes widget) in
  (Forall (λ r, type r ∈ recognizedTypes) refinements →
   ∃ w1 params,
     init getRefinements clearRefinementsFromState emptyObject widget options w = (Ok (), w1)
     ∧ rendered w1 = rendered w ++ [(params, true)]
     ∧ lookupProperty params "refinements" = Some (VRefinements refinements)
     ∧ lookupProperty params "clearAllClick" = Some (VFunction f0)
     ∧ _clearRefinementsAndSearch w1 = Some f0
     ∧ (∃ clicks,
          functions w1 = functions w ++ [clearAll] ++ clicks
          ∧ Forall isBoundClearRefinement clicks)
     ∧ ∀ passes,
         let w2 := renderPasses getRefinements clearRefinementsFromState widget passes w1 in
         _clearRefinementsAndSearch w2 = Some f0
         ∧ functions w2 !! f0 = Some clearAll
         ∧ (∃ clicks,
              functions w2 = functions w1 ++ clicks
              ∧ Forall isBoundClearRefinement clicks)
         ∧ ∃ calls,
             rendered w2 = rendered w1 ++ calls
             ∧ Forall (λ call, call.2 = false
                               ∧ lookupProperty call.1 "clearAllClick"
                                 = Some (VFunction f0)) calls
             ∧ (Forall (λ options,
                          Forall (λ r, type r ∈ recognizedTypes)
                            (getFilteredRefinements getRefinements (render_results options)
                               (render_state options)
                               (widget_attributeNames widget)
                               (widget_onlyListedAttributes widget)))
                  passes →
                length calls = length passes))
  ∧ (¬ Forall (λ r, type r ∈ recognizedTypes) refinements →
     ∃ e w1,
       init getRefinements clearRefinementsFromState emptyObject widget options w
       = (Throw e, w1)
       ∧ rendered w1 = rendered w).
Proof.
  intros helper f0 clearAll refinements. rewrite init_unfold.
  fold helper clearAll f0 refinements.
  destruct (mapResult _ _) as [urls|e] eqn:Hurls.
  - split; [|intros Hnot; destruct Hnot; by eapply urls_Ok_recognized].
    intros _. eexists _, _. split; [reflexivity|].
    split; [reflexivity|]. split; [reflexivity|]. split; [reflexivity|].
    split; [reflexivity|]. split.
    { eexists. cbn [functions]. rewrite <- app_assoc. split; [reflexivity|].
      apply Forall_fmap, Forall_true. done. }
    intros passes.
    match goal with
    | |- context [renderPasses _ _ _ _ ?w1] =>
        destruct (renderPasses_cached widget passes w1 f0 eq_refl)
          as (Hf & (clicks & Hfun & Hclicks) & Hcalls)
    end.
    intros w2. fold w2 in Hf, Hfun, Hcalls.
    split; [done|]. split; [|split; [eauto | done]].
    rewrite Hfun. cbn [functions]. rewrite <- !app_assoc.
    rewrite lookup_app_r by (unfold f0; lia).
    by replace (f0 - length (functions w))%nat with 0%nat by (unfold f0; lia).
  - split; [|intros _; eauto].
    intros Hall.
    destruct (urls_Ok (init_createURL options) (state (helpers w helper)) _ Hall)
      as [urls Hok].
    congruence.
Qed.
End RenderingProperties.

Lemma rendering_options_aligned_witness :
  ∃ w', init listRefinements listClearRefinementsFromState () sampleWidget sampleInit sampleWorld
        = (Ok (), w').
Proof.
  apply (proj1 (proj2 (proj2 (rendering_options_aligned
           listRefinements listClearRefinementsFromState ()
           listClearRefinementsAndSearch sampleWidget)))
           sampleInit sampleWorld).
  repeat (apply Forall_cons_2; [apply list_elem_of_here|]).
  apply Forall_nil_2.
Defined.

Lemma init_then_render_witness :
  ∃ w1,
    init listRefinements listClearRefinementsFromState () sampleWidget sampleInit sampleWorld
    = (Ok (), w1)
    ∧ _clearRefinementsAndSearch w1 = Some 0%nat
    ∧ ∃ calls,
        rendered
          (renderPasses listRefinements listClearRefinementsFromState sampleWidget
             [sampleRender sampleState] w1)
        = rendered w1 ++ calls
        ∧ length calls = 1%nat.
Proof.
  destruct (proj1 (init_then_render listRefinements listClearRefinementsFromState ()
                     sampleWidget sampleInit sampleWorld))
    as (w1 & params & Hinit & _ & _ & _ & Hcached & _ & Hpasses).
  { repeat (apply Forall_cons_2; [apply list_elem_of_here|]). apply Forall_nil_2. }
  exists w1. split; [exact Hinit|]. split; [exact Hcached|].
  destruct (Hpasses [sampleRender sampleState]) as (_ & _ & _ & calls & Hcalls & _ & Hlen).
  exists calls. split; [exact Hcalls|]. apply Hlen.
  apply Forall_cons_2; [|apply Forall_nil_2].
  repeat (apply Forall_cons_2; [apply list_elem_of_here|]).
  apply Forall_nil_2.
Defined.

(** ** The collector on mutable arrays *)

Lemma readStrings_snoc heap acc :
  readStrings (length heap) (heap ++ [ArrayOfStrings acc]) = acc.
Proof. unfold readStrings. by rewrite list_lookup_middle. Qed.

Lemma push_snoc heap acc x :
  push (length heap) x (heap ++ [ArrayOfStrings acc])
  = heap ++ [ArrayOfStrings (acc ++ [x])].
Proof.
  unfold push. rewrite list_lookup_middle by done.
  rewrite insert_app_r_alt by lia. by rewrite Nat.sub_diag.
Qed.

Lemma collect_in_heap attributeNames refinements heap acc :
  fold_left
    (λ heap0 refinement,
       if shouldCollect attributeNames (readStrings (length heap) heap0) refinement
       then push (length heap) (attributeName refinement) heap0
       else heap0)
    refinements (heap ++ [ArrayOfStrings acc])
  = heap
    ++ [ArrayOfStrings
          (fold_left
             (λ res refinement,
                if shouldCollect attributeNames res refinement
                then res ++ [attributeName refinement] else res)
             refinements acc)].
Proof.
  revert acc. induction refinements as [|r refinements IH]; intros acc; simpl; [done|].
  rewrite readStrings_snoc.
  destruct (shouldCollect attributeNames acc r); [|apply IH].
  rewrite push_snoc. apply IH.
Qed.

Section InPlaceProperties.
Context {Results State : Type}.
Variable getRefinementsRef : Results → State → list Cell → nat * list Cell.
Variable getRefinements : Results → State → list Refinement.
Hypothesis getRefinements_new : returnsNewArray getRefinementsRef getRefinements.

(** The heap after [getFilteredRefinements], and the array it returns. *)
Lemma getFilteredRefinementsRef_unfold results state attributeNames onlyListedAttributes heap :
  let result :=
    getFilteredRefinementsRef getRefinementsRef results state attributeNames
      onlyListedAttributes heap in
  (∃ added, result.2 = heap ++ added)
  ∧ result.2 !! result.1
    = Some (ArrayOfRefinements
              (getFilteredRefinements getRefinements results state attributeNames
                 onlyListedAttributes)).
Proof.
  unfold getFilteredRefinementsRef, getFilteredRefinements, sortAndFilter.
  destruct (getRefinements_new results state heap) as (added & Hheap & Hle & Hlook).
  destruct (getRefinementsRef results state heap) as [a heap1]. simpl in Hheap, Hle, Hlook.
  subst heap1. set (raw := getRefinements results state) in *.
  set (heap1 := heap ++ added) in *.
  assert (a < length heap1)%nat as Hlt by by eapply lookup_lt_Some.
  unfold alloc.
  assert (readRefinements a (heap1 ++ [ArrayOfStrings []]) = raw) as ->.
  { unfold readRefinements. by rewrite lookup_app_l, Hlook by done. }
  rewrite collect_in_heap. fold (otherAttributeNames attributeNames raw).
  rewrite readStrings_snoc.
  set (sorted := sort (compareRefinements attributeNames
                         (otherAttributeNames attributeNames raw)) raw).
  assert (sortInPlace
            (compareRefinements attributeNames (otherAttributeNames attributeNames raw)) a
            (heap1 ++ [ArrayOfStrings (otherAttributeNames attributeNames raw)])
          = <[a := ArrayOfRefinements sorted]> heap1
            ++ [ArrayOfStrings (otherAttributeNames attributeNames raw)]) as ->.
  { unfold sortInPlace. rewrite lookup_app_l, Hlook by done. by rewrite insert_app_l. }
  assert (<[a := ArrayOfRefinements sorted]> heap1
          = heap ++ <[(a - length heap)%nat := ArrayOfRefinements sorted]> added)
    as Hsplit.
  { unfold heap1. by rewrite insert_app_r_alt. }
  assert (∀ rest,
    (<[a := ArrayOfRefinements sorted]> heap1 ++ rest) !! a
    = Some (ArrayOfRefinements sorted)) as Hread.
  { intros rest. rewrite lookup_app_l by by rewrite length_insert.
    by rewrite list_lookup_insert_eq. }
  destruct (onlyListedAttributes && _); simpl.
  - split.
    + eexists. rewrite Hsplit, <- !app_assoc. reflexivity.
    + unfold readRefinements. rewrite Hread. by apply list_lookup_middle.
  - split.
    + eexists. rewrite Hsplit, <- !app_assoc. reflexivity.
    + apply Hread.
Qed.

(** C9, for a [getRefinements] that returns a new array and writes to no
    object that existed before: the array that [getFilteredRefinements]
    returns holds a value that depends on the four arguments only, so
    that two calls on equal arguments, from any two heaps, return equal
    contents; and every object of the heap before the call, the state and
    the results among them, is unchanged after it. *)
Theorem getFilteredRefinements_pure results state attributeNames onlyListedAttributes heap :
  let result :=
    getFilteredRefinementsRef getRefinementsRef results state attributeNames
      onlyListedAttributes heap in
  result.2 !! result.1
  = Some (ArrayOfRefinements
            (getFilteredRefinements getRefinements results state attributeNames
               onlyListedAttributes))
  ∧ (∀ heap0,
       let result0 :=
         getFilteredRefinementsRef getRefinementsRef results state attributeNames
           onlyListedAttributes heap0 in
       readRefinements result0.1 result0.2 = readRefinements result.1 result.2)
  ∧ (∀ (a : nat) cell, heap !! a = Some cell → result.2 !! a = Some cell).
Proof.
  intros result.
  destruct (getFilteredRefinementsRef_unfold results state attributeNames
              onlyListedAttributes heap) as [[added Hheap] Hout].
  fold result in Hheap, Hout.
  split; [done|]. split.
  - intros heap0 result0.
    destruct (getFilteredRefinementsRef_unfold results state attributeNames
                onlyListedAttributes heap0) as [_ Hout0].
    fold result0 in Hout0.
    unfold readRefinements. by rewrite Hout, Hout0.
  - intros i cell Hi. rewrite Hheap.
    by apply lookup_app_l_Some.
Qed.
End InPlaceProperties.

Lemma getFilteredRefinements_pure_witness :
  let result :=
    getFilteredRefinementsRef listRefinementsRef () sampleState ["b"; "a"] true
      [OtherObject JsNull] in
  result.2 !! result.1
  = Some (ArrayOfRefinements
            (getFilteredRefinements listRefinements () sampleState ["b"; "a"] true))
  ∧ result.2 !! 0%nat = Some (OtherObject JsNull).
Proof.
  assert (returnsNewArray listRefinementsRef listRefinements) as Hnew.
  { intros results state heap.
    exists [ArrayOfRefinements (listRefinements results state)].
    split; [reflexivity|]. split; [simpl; lia|].
    apply list_lookup_middle. reflexivity. }
  destruct (getFilteredRefinements_pure listRefinementsRef listRefinements Hnew
              () sampleState ["b"; "a"] true [OtherObject JsNull]) as (Hout & _ & Hframe).
  split; [exact Hout|]. apply Hframe. reflexivity.
Defined.

(** Without that assumption the sort shows: a [getRefinements] that hands
    out an array of the state has it sorted in place. *)
Lemma getFilteredRefinementsRef_aliased :
  getFilteredRefinementsRef (λ (_ _ : unit) heap, (0%nat, heap)) () () [] false
    [ArrayOfRefinements [facet "a" "red"; facet "a" "blue"]]
  = (0%nat,
     [ArrayOfRefinements [facet "a" "blue"; facet "a" "red"]; ArrayOfStrings ["a"; "a"]]).
Proof. reflexivity. Qed.


(** * Further properties *)

(** ** The comparator as an order *)

Lemma ltb_asym s1 s2 : String.ltb s1 s2 = true → String.ltb s2 s1 = false.
Proof.
  intros H12. apply not_true_iff_false. intros H21.
  pose proof (ltb_trans _ _ _ H12 H21) as Hrefl. by rewrite ltb_irrefl in Hrefl.
Qed.

Lemma compareRefinements_opp attributeNames others a b :
  compareRefinements attributeNames others a b
  = - compareRefinements attributeNames others b a.
Proof.
  unfold compareRefinements.
  rewrite (Z.eqb_sym (getRestrictedIndexForSort attributeNames others (attributeName b))).
  rewrite (String.eqb_sym (name b)).
  destruct (Z.eqb_spec (getRestrictedIndexForSort attributeNames others (attributeName a))
                       (getRestrictedIndexForSort attributeNames others (attributeName b)))
    as [Heq|Hne].
  - destruct (String.eqb (name a) (name b)) eqn:Hn; [done|].
    destruct (String.ltb (name a) (name b)) eqn:Hlt.
    + by rewrite (ltb_asym _ _ Hlt).
    + by rewrite (ltb_connected _ _ Hn Hlt).
  - destruct (Z.ltb_spec (getRestrictedIndexForSort attributeNames others (attributeName a))
                         (getRestrictedIndexForSort attributeNames others (attributeName b)));
      destruct (Z.ltb_spec (getRestrictedIndexForSort attributeNames others (attributeName b))
                           (getRestrictedIndexForSort attributeNames others (attributeName a)));
      lia.
Qed.

Lemma compareRefinements_values attributeNames others a b :
  compareRefinements attributeNames others a b = -1
  ∨ compareRefinements attributeNames others a b = 0
  ∨ compareRefinements attributeNames others a b = 1.
Proof.
  unfold compareRefinements.
  repeat match goal with |- context [if ?c then _ else _] => destruct c end; auto.
Qed.

(** X1: [compareRefinements] is a consistent comparator, whatever the two
    lists of names: it returns [-1], [0] or [1], swapping its arguments
    negates the result, and it is transitive. *)
Theorem compareRefinements_consistent attributeNames others a b c :
  (compareRefinements attributeNames others a b = -1
   ∨ compareRefinements attributeNames others a b = 0
   ∨ compareRefinements attributeNames others a b = 1)
  ∧ compareRefinements attributeNames others a b
    = - compareRefinements attributeNames others b a
  ∧ (compareRefinements attributeNames others a b <= 0 →
     compareRefinements attributeNames others b c <= 0 →
     compareRefinements attributeNames others a c <= 0).
Proof.
  split; [apply compareRefinements_values|].
  split; [apply compareRefinements_opp | apply compareRefinements_trans].
Qed.

Lemma compareRefinements_consistent_witness :
  compareRefinements ["b"; "a"] ["c"] (facet "b" "m") (facet "c" "x") <= 0.
Proof.
  apply (proj2 (proj2 (compareRefinements_consistent ["b"; "a"] ["c"]
                         (facet "b" "m") (facet "a" "red") (facet "c" "x")))).
  - vm_compute. discriminate.
  - vm_compute. discriminate.
Defined.

Lemma position_lookup x l k : position x l = Some k → l !! k = Some x.
Proof.
  revert k. induction l as [|y l IH]; simpl; intros k; [done|].
  destruct (String.eqb_spec y x) as [->|_].
  - by intros [= <-].
  - destruct (position x l) as [k'|]; simpl; [|done].
    intros [= <-]. by apply IH.
Qed.

Lemma position_inj x y l k : position x l = Some k → position y l = Some k → x = y.
Proof. intros Hx%position_lookup Hy%position_lookup. congruence. Qed.

Lemma compareRefinements_zero_iff attributeNames others a b :
  attributeName a ∈ attributeNames ++ others →
  attributeName b ∈ attributeNames ++ others →
  compareRefinements attributeNames others a b = 0
  ↔ attributeName a = attributeName b ∧ name a = name b.
Proof.
  intros [ka Hka]%position_elem_of [kb Hkb]%position_elem_of.
  unfold compareRefinements.
  rewrite (getRestrictedIndexForSort_position _ _ _ _ Hka),
    (getRestrictedIndexForSort_position _ _ _ _ Hkb).
  destruct (Z.eqb_spec (Z.of_nat ka) (Z.of_nat kb)) as [Heq|Hne].
  - apply Nat2Z.inj in Heq. subst kb.
    pose proof (position_inj _ _ _ _ Hka Hkb) as Hattr.
    destruct (String.eqb_spec (name a) (name b)) as [Hn|Hn].
    + done.
    + split; [|by intros [_ ?]]. by destruct (String.ltb (name a) (name b)).
  - split.
    + by destruct (Z.of_nat ka <? Z.of_nat kb).
    + intros [Hattr _]. rewrite Hattr, Hkb in Hka. congruence.
Qed.

(** X2: on refinements whose attribute names are configured or collected,
    [compareRefinements] returns [0] exactly for two refinements of the
    same attribute name and the same name: the sort identifies a
    refinement by these two fields and by nothing else. *)
Theorem compareRefinements_zero attributeNames others a b :
  attributeName a ∈ attributeNames ++ others →
  attributeName b ∈ attributeNames ++ others →
  compareRefinements attributeNames others a b = 0
  ↔ attributeName a = attributeName b ∧ name a = name b.
Proof. apply compareRefinements_zero_iff. Qed.

Lemma compareRefinements_zero_witness :
  compareRefinements ["b"; "a"] ["c"] (facet "a" "red") (numeric "a" ">=" 10) = 0
  ↔ attributeName (facet "a" "red") = attributeName (numeric "a" ">=" 10)
    ∧ name (facet "a" "red") = name (numeric "a" ">=" 10).
Proof.
  apply (compareRefinements_zero ["b"; "a"] ["c"] (facet "a" "red") (numeric "a" ">=" 10)).
  - simpl. apply list_elem_of_further, list_elem_of_here.
  - simpl. apply list_elem_of_further, list_elem_of_here.
Defined.

(** X3: the sort index of a name is its position when the name is
    configured (below the number of configured names), that number plus
    its position among the other names when it is only there, and the
    number of configured names minus one when it is in neither list. *)
Theorem getRestrictedIndexForSort_range attributeNames others x :
  (∀ k, position x attributeNames = Some k →
        getRestrictedIndexForSort attributeNames others x = Z.of_nat k
        ∧ Z.of_nat k < Z.of_nat (length attributeNames))
  ∧ (∀ k, x ∉ attributeNames → position x others = Some k →
          getRestrictedIndexForSort attributeNames others x
          = Z.of_nat (length attributeNames) + Z.of_nat k
          ∧ Z.of_nat k < Z.of_nat (length others))
  ∧ (x ∉ attributeNames → x ∉ others →
     getRestrictedIndexForSort attributeNames others x
     = Z.of_nat (length attributeNames) - 1).
Proof.
  unfold getRestrictedIndexForSort. rewrite !indexOfString_position.
  split; [|split].
  - intros k Hk. rewrite Hk. simpl.
    apply position_lt_length in Hk as Hlt.
    destruct (Z.eqb_spec (Z.of_nat k) (-1)); simpl; lia.
  - intros k Hx%position_None Hk. rewrite Hx, Hk. simpl.
    apply position_lt_length in Hk. lia.
  - intros Hx%position_None Ho%position_None. rewrite Hx, Ho. simpl. lia.
Qed.

Lemma getRestrictedIndexForSort_range_witness :
  getRestrictedIndexForSort ["b"; "a"] ["c"] "zz" = 1
  ∧ getRestrictedIndexForSort ["b"; "a"] ["c"] "a" = 1.
Proof.
  split.
  - apply (proj2 (proj2 (getRestrictedIndexForSort_range ["b"; "a"] ["c"] "zz"))).
    + intros Hin. by repeat (apply elem_of_cons in Hin as [Hin|Hin]; [discriminate Hin|]);
        apply elem_of_nil in Hin.
    + intros Hin. by repeat (apply elem_of_cons in Hin as [Hin|Hin]; [discriminate Hin|]);
        apply elem_of_nil in Hin.
  - apply (proj1 (getRestrictedIndexForSort_range ["b"; "a"] ["c"] "a") 1%nat).
    reflexivity.
Defined.

(** ** More on the collector *)

(** X4: [otherAttributeNames] is the list of the attribute names of the
    active refinements that are not configured, in the order of the
    refinements, with one entry for each such refinement; a name is in it
    exactly when it is the attribute name of an active refinement and is
    not configured. *)
Theorem otherAttributeNames_unlisted attributeNames refinements :
  otherAttributeNames attributeNames refinements
  = List.filter (unlisted attributeNames) (map attributeName refinements)
  ∧ length (otherAttributeNames attributeNames refinements)
    = length (List.filter (λ r, unlisted attributeNames (attributeName r)) refinements)
  ∧ ∀ x, x ∈ otherAttributeNames attributeNames refinements
         ↔ x ∈ map attributeName refinements ∧ x ∉ attributeNames.
Proof.
  rewrite otherAttributeNames_filter. split; [done|]. split.
  - induction refinements as [|r refinements IH]; simpl; [done|].
    destruct (unlisted attributeNames (attributeName r)); simpl; by rewrite IH.
  - intros x. rewrite list_elem_of_In, filter_In, <- list_elem_of_In.
    unfold unlisted. by rewrite indexOfString_absent.
Qed.

Lemma filter_all {A : Type} (p : A → bool) l :
  (∀ x, x ∈ l → p x = true) → List.filter p l = l.
Proof.
  induction l as [|x l IH]; intros Hall; simpl; [done|].
  rewrite (Hall x) by left. f_equal. apply IH. intros y Hy. apply Hall. by right.
Qed.

(** X5: when every active refinement is on a configured attribute,
    [onlyListedAttributes] makes no difference to the output. *)
Theorem getFilteredRefinements_all_listed {Results State : Type}
    (getRefinements : Results → State → list Refinement) results state attributeNames :
  (∀ r, r ∈ getRefinements results state → attributeName r ∈ attributeNames) →
  getFilteredRefinements getRefinements results state attributeNames true
  = getFilteredRefinements getRefinements results state attributeNames false.
Proof.
  intros Hall. unfold getFilteredRefinements, sortAndFilter. simpl.
  destruct (negb (length attributeNames =? 0)%nat); [|done].
  apply filter_all. intros r Hr%sort_elem_of.
  by apply indexOfString_present, Hall.
Qed.

Lemma getFilteredRefinements_all_listed_witness :
  getFilteredRefinements listRefinements () [facet "a" "red"; facet "b" "m"] ["b"; "a"] true
  = getFilteredRefinements listRefinements () [facet "a" "red"; facet "b" "m"] ["b"; "a"] false.
Proof.
  apply (getFilteredRefinements_all_listed listRefinements () [facet "a" "red"; facet "b" "m"]
           ["b"; "a"]).
  intros r Hr. unfold listRefinements in Hr.
  apply elem_of_cons in Hr as [->|Hr]; [apply list_elem_of_further, list_elem_of_here|].
  apply elem_of_cons in Hr as [->|Hr]; [apply list_elem_of_here|].
  by apply elem_of_nil in Hr.
Defined.

(** On a configured attribute name the sort index does not depend on the
    other names. *)
Lemma getRestrictedIndexForSort_listed attributeNames others others' x :
  x ∈ attributeNames →
  getRestrictedIndexForSort attributeNames others x
  = getRestrictedIndexForSort attributeNames others' x.
Proof.
  intros Hx%indexOfString_present. unfold getRestrictedIndexForSort. by rewrite Hx.
Qed.

Lemma compareRefinements_listed attributeNames others others' a b :
  attributeName a ∈ attributeNames → attributeName b ∈ attributeNames →
  compareRefinements attributeNames others a b
  = compareRefinements attributeNames others' a b.
Proof.
  intros Ha Hb. unfold compareRefinements.
  by rewrite (getRestrictedIndexForSort_listed _ others others' _ Ha),
    (getRestrictedIndexForSort_listed _ others others' _ Hb).
Qed.

Lemma sortAndFilter_listed_sorted attributeNames others refinements :
  attributeNames ≠ [] →
  StronglySorted (λ a b, compareRefinements attributeNames [] a b <= 0)
    (sortAndFilter attributeNames others true refinements)
  ∧ sortAndFilter attributeNames others true refinements
    ≡ₚ filter (λ r, attributeName r ∈ attributeNames) refinements
  ∧ ∀ r, r ∈ sortAndFilter attributeNames others true refinements →
         attributeName r ∈ attributeNames.
Proof.
  intros Hne.
  assert (sortAndFilter attributeNames others true refinements
          = filter (λ r, attributeName r ∈ attributeNames)
              (sort (compareRefinements attributeNames others) refinements)) as Heq.
  { unfold sortAndFilter. destruct attributeNames; [done|]. simpl.
    apply filter_listed. }
  assert (∀ r, r ∈ sortAndFilter attributeNames others true refinements →
               attributeName r ∈ attributeNames) as Hlisted.
  { intros r. rewrite Heq. by intros [? _]%list_elem_of_filter. }
  split; [|split; [|done]].
  - eapply StronglySorted_weaken; [|apply sortAndFilter_sorted].
    intros a b Ha%Hlisted Hb%Hlisted Hab. simpl in *.
    by rewrite <- (compareRefinements_listed _ others [] _ _ Ha Hb).
  - rewrite Heq. by rewrite sort_Permutation.
Qed.

(** X6: with [onlyListedAttributes] and configured attributes, the output
    does not depend on the order in which the active refinements come,
    as long as no two different refinements on a configured attribute
    share attribute name and name. *)
Theorem getFilteredRefinements_listed_order {Results State : Type}
    (getRefinements : Results → State → list Refinement)
    results1 state1 results2 state2 attributeNames :
  attributeNames ≠ [] →
  getRefinements results1 state1 ≡ₚ getRefinements results2 state2 →
  (∀ a b, a ∈ getRefinements results1 state1 → b ∈ getRefinements results1 state1 →
          attributeName a ∈ attributeNames →
          attributeName a = attributeName b → name a = name b → a = b) →
  getFilteredRefinements getRefinements results1 state1 attributeNames true
  = getFilteredRefinements getRefinements results2 state2 attributeNames true.
Proof.
  intros Hne Hperm Hdistinct. unfold getFilteredRefinements.
  set (raw1 := getRefinements results1 state1) in *.
  set (raw2 := getRefinements results2 state2) in *.
  destruct (sortAndFilter_listed_sorted attributeNames
              (otherAttributeNames attributeNames raw1) raw1 Hne) as (Hs1 & Hp1 & Hl1).
  destruct (sortAndFilter_listed_sorted attributeNames
              (otherAttributeNames attributeNames raw2) raw2 Hne) as (Hs2 & Hp2 & Hl2).
  eapply (StronglySorted_unique_strong _ _ _ _ Hs1 Hs2).
  Unshelve.
  - by rewrite Hp1, Hp2, Hperm.
  - intros a b Ha Hb Hab Hba. simpl in Hab, Hba.
    assert (compareRefinements attributeNames [] a b = 0) as Hzero.
    { rewrite (compareRefinements_opp attributeNames [] b a) in Hba. lia. }
    assert (attributeName a ∈ attributeNames ++ []) as Ha'
      by (rewrite app_nil_r; by apply Hl1).
    assert (attributeName b ∈ attributeNames ++ []) as Hb'
      by (rewrite app_nil_r; by apply Hl2).
    apply (compareRefinements_zero_iff _ _ _ _ Ha' Hb') in Hzero as [Hattr Hname].
    apply Hdistinct; [| |by apply Hl1|done..].
    + by apply sortAndFilter_elem_of in Ha.
    + apply sortAndFilter_elem_of in Hb. by rewrite Hperm.
Qed.

Lemma getFilteredRefinements_listed_order_witness :
  getFilteredRefinements listRefinements ()
    [facet "a" "red"; facet "b" "m"; facet "c" "x"] ["b"; "a"] true
  = getFilteredRefinements listRefinements ()
      [facet "c" "x"; facet "b" "m"; facet "a" "red"] ["b"; "a"] true.
Proof.
  apply (getFilteredRefinements_listed_order listRefinements
           () [facet "a" "red"; facet "b" "m"; facet "c" "x"]
           () [facet "c" "x"; facet "b" "m"; facet "a" "red"] ["b"; "a"]).
  - discriminate.
  - unfold listRefinements.
    apply (perm_trans (l' := [facet "b" "m"; facet "a" "red"; facet "c" "x"]));
      [apply perm_swap|].
    apply (perm_trans (l' := [facet "b" "m"; facet "c" "x"; facet "a" "red"]));
      [apply perm_skip, perm_swap | apply perm_swap].
  - unfold listRefinements. intros a b Ha Hb _ Hattr Hname.
    apply elem_of_cons in Ha as [->|Ha]; [|apply elem_of_cons in Ha as [->|Ha];
      [|apply elem_of_cons in Ha as [->|Ha]; [|by apply elem_of_nil in Ha]]];
    (apply elem_of_cons in Hb as [->|Hb]; [|apply elem_of_cons in Hb as [->|Hb];
      [|apply elem_of_cons in Hb as [->|Hb]; [|by apply elem_of_nil in Hb]]]);
    first [reflexivity | discriminate Hattr].
Defined.

(** ** The widget that the factory builds *)







(** An attribute named [__proto__] is accepted and leaves no key. *)
Example connectCurrentRefinedValues_proto :
  ∃ built,
    connectCurrentRefinedValues
      (JsObject true
         [("attributes",
           JsArray [JsObject true [("name", JsString "__proto__"); ("label", JsString "x")]])])
    = Ok built
    ∧ built_attributeNames built = [JsString "__proto__"]
    ∧ built_attributesObj built = ∅
    ∧ built_attributesObjPrototype built
      = Some (JsObject true [("name", JsString "__proto__"); ("label", JsString "x")])
    ∧ widgetOf built = None.
Proof. eexists. split; [reflexivity|]. repeat split; reflexivity. Qed.


(** ** Passes that throw, and what no pass does *)

Lemma mapResult_Throw {A B : Type} (f : A → Result B) l e :
  mapResult f l = Throw e
  ↔ ∃ before x after,
      l = before ++ x :: after
      ∧ Forall (λ y, ∃ v, f y = Ok v) before
      ∧ f x = Throw e.
Proof.
  split.
  - induction l as [|x l IH]; simpl; [done|].
    destruct (f x) as [v|e'] eqn:Hfx.
    + destruct (mapResult f l) as [vs|e''] eqn:Hl; simpl; [done|].
      intros [= ->]. destruct (IH eq_refl) as (before & y & after & -> & Hok & Hy).
      exists (x :: before), y, after. split; [done|]. split; [|done].
      apply Forall_cons. eauto.
    + intros [= ->]. exists [], x, l. by repeat split.
  - intros (before & x & after & -> & Hok & Hx).
    induction Hok as [|y before [v Hv] _ IH]; simpl.
    + by rewrite Hx.
    + by rewrite Hv, IH.
Qed.

Lemma clearRefinementFromState_Throw {State : Type} `{SearchState State}
    (current : State) refinement e :
  clearRefinementFromState current refinement = Throw e
  ↔ (type refinement ∉ recognizedTypes) ∧ e = notHandled (type refinement).
Proof.
  split.
  - intros Hthrow. destruct (decide (type refinement ∈ recognizedTypes)) as [Hin|Hnot].
    + destruct (recognized_Ok current refinement Hin) as [cleared Hok]. congruence.
    + split; [done|]. revert Hthrow. unfold clearRefinementFromState.
      apply unrecognized_type in Hnot as (-> & -> & -> & -> & -> & ->).
      by intros [= <-].
  - intros [Hnot ->]. unfold clearRefinementFromState.
    apply unrecognized_type in Hnot as (-> & -> & -> & -> & -> & ->).
    reflexivity.
Qed.

Lemma urls_Throw {State : Type} `{SearchState State}
    (createURL : State → string) (current : State) refinements e :
  mapResult (λ r, resultMap createURL (clearRefinementFromState current r)) refinements
  = Throw e
  ↔ ∃ before r after,
      refinements = before ++ r :: after
      ∧ Forall (λ r, type r ∈ recognizedTypes) before
      ∧ (type r ∉ recognizedTypes)
      ∧ e = notHandled (type r).
Proof.
  rewrite mapResult_Throw. split.
  - intros (before & r & after & -> & Hok & Hr). exists before, r, after.
    split; [done|]. split.
    + eapply Forall_impl; [exact Hok|]. intros r' [v Hv]. simpl in Hv.
      destruct (decide (type r' ∈ recognizedTypes)) as [|Hnot]; [done|].
      assert (clearRefinementFromState current r' = Throw (notHandled (type r'))) as Hthrow
        by by apply clearRefinementFromState_Throw.
      by rewrite Hthrow in Hv.
    + apply (clearRefinementFromState_Throw current).
      destruct (clearRefinementFromState current r); simpl in Hr; [done|].
      by injection Hr as ->.
  - intros (before & r & after & -> & Hok & Hr & ->). exists before, r, after.
    split; [done|]. split.
    + eapply Forall_impl; [exact Hok|]. intros r' [v Hv]%(recognized_Ok current).
      rewrite Hv. simpl. eauto.
    + assert (clearRefinementFromState current r = Throw (notHandled (type r))) as ->
        by by apply clearRefinementFromState_Throw.
      done.
Qed.

Section RenderingFurther.
Context {Results State Instance : Type} `{SearchState State}.
Variable getRefinements : Results → State → list Refinement.
Variable clearRefinementsFromState : State → list string → State.
Variable emptyObject : Results.

(** X9: no pass touches a helper: after [init], after [render] and after
    any sequence of [render] passes, whether they throw or not, every
    helper has the state and the number of searches it had. *)
Theorem passes_leave_helpers widget (w : @World State Instance) :
  (∀ options,
     helpers (init getRefinements clearRefinementsFromState emptyObject widget options w).2
     = helpers w)
  ∧ (∀ options,
       helpers (render getRefinements clearRefinementsFromState widget options w).2
       = helpers w)
  ∧ (∀ passes,
       helpers (renderPasses getRefinements clearRefinementsFromState widget passes w)
       = helpers w).
Proof.
  assert (∀ options (w0 : @World State Instance),
    helpers (render getRefinements clearRefinementsFromState widget options w0).2
    = helpers w0) as Hrender.
  { intros options w0. rewrite render_unfold. by destruct (mapResult _ _). }
  split; [|split; [done|]].
  - intros options. rewrite init_unfold. by destruct (mapResult _ _).
  - intros passes. revert w. induction passes as [|options passes IH]; intros w; [done|].
    simpl. fold (renderPasses getRefinements clearRefinementsFromState widget passes).
    by rewrite IH, Hrender.
Qed.

(** X10: [render] passes as [clearAllClick] whatever the property
    [_clearRefinementsAndSearch] of the widget holds, [undefined] when
    [init] has not run, and does not write that property; a pass of
    [render] that throws changes nothing at all. *)
Theorem render_clearAllClick widget options (w : @World State Instance) :
  match render getRefinements clearRefinementsFromState widget options w with
  | (Ok _, w') =>
      _clearRefinementsAndSearch w' = _clearRefinementsAndSearch w
      ∧ ∃ params,
          rendered w' = rendered w ++ [(params, false)]
          ∧ lookupProperty params "clearAllClick"
            = Some (match _clearRefinementsAndSearch w with
                    | Some f => VFunction f
                    | None => VUndefined
                    end)
  | (Throw _, w') => w' = w
  end.
Proof.
  rewrite render_unfold. destruct (mapResult _ _); [|done].
  split; [done|]. eexists. split; [reflexivity|].
  simpl. by destruct (_clearRefinementsAndSearch w).
Qed.

(** X11: [render] throws exactly when one of the refinements it would
    show has a type that is not recognized; the error is the one for the
    first such refinement in the sorted list, the render function is not
    called and nothing is changed. *)
Theorem render_throws widget options (w : @World State Instance) :
  let refinements :=
    getFilteredRefinements getRefinements (render_results options) (render_state options)
      (widget_attributeNames widget) (widget_onlyListedAttributes widget) in
  (∀ e w',
     render getRefinements clearRefinementsFromState widget options w = (Throw e, w') →
     w' = w
     ∧ ∃ before r after,
         refinements = before ++ r :: after
         ∧ Forall (λ r, type r ∈ recognizedTypes) before
         ∧ (type r ∉ recognizedTypes)
         ∧ e = notHandled (type r))
  ∧ (∀ before r after,
       refinements = before ++ r :: after →
       Forall (λ r, type r ∈ recognizedTypes) before →
       type r ∉ recognizedTypes →
       render getRefinements clearRefinementsFromState widget options w
       = (Throw (notHandled (type r)), w)).
Proof.
  intros refinements. split.
  - intros e w'. rewrite render_unfold. fold refinements.
    destruct (mapResult _ _) as [urls|e'] eqn:Hurls; [done|].
    intros [= -> <-]. split; [done|]. by apply urls_Throw in Hurls.
  - intros before r after Heq Hok Hr. rewrite render_unfold. fold refinements.
    assert (mapResult
              (λ r, resultMap (render_createURL options)
                      (clearRefinementFromState (render_state options) r)) refinements
            = Throw (notHandled (type r))) as ->; [|done].
    apply urls_Throw. eauto 8.
Qed.

(** X12: [init] throws exactly when one of the refinements it would show
    has a type that is not recognized, with the error for the first such
    refinement; the render function is not called, but the function object
    for [clearAllClick] has been made and kept in
    [_clearRefinementsAndSearch] before the throw. *)
Theorem init_throws widget options (w : @World State Instance) :
  let refinements :=
    getFilteredRefinements getRefinements emptyObject
      (state (helpers w (init_helper options)))
      (widget_attributeNames widget) (widget_onlyListedAttributes widget) in
  let clearAll :=
    BoundClearRefinementsAndSearch (init_helper options) (widget_restrictedTo widget) in
  (∀ e w',
     init getRefinements clearRefinementsFromState emptyObject widget options w
     = (Throw e, w') →
     (rendered w' = rendered w
      ∧ functions w' = functions w ++ [clearAll]
      ∧ _clearRefinementsAndSearch w' = Some (length (functions w)))
     ∧ ∃ before r after,
         refinements = before ++ r :: after
         ∧ Forall (λ r, type r ∈ recognizedTypes) before
         ∧ (type r ∉ recognizedTypes)
         ∧ e = notHandled (type r))
  ∧ (∀ before r after,
       refinements = before ++ r :: after →
       Forall (λ r, type r ∈ recognizedTypes) before →
       type r ∉ recognizedTypes →
       ∃ w',
         init getRefinements clearRefinementsFromState emptyObject widget options w
         = (Throw (notHandled (type r)), w')).
Proof.
  intros refinements clearAll. split.
  - intros e w'. rewrite init_unfold. fold refinements clearAll.
    destruct (mapResult _ _) as [urls|e'] eqn:Hurls; [done|].
    intros [= -> <-]. split; [done|]. by apply urls_Throw in Hurls.
  - intros before r after Heq Hok Hr. rewrite init_unfold. fold refinements.
    assert (mapResult
              (λ r, resultMap (init_createURL options)
                      (clearRefinementFromState (state (helpers w (init_helper options))) r))
              refinements
            = Throw (notHandled (type r))) as ->; [|eauto].
    apply urls_Throw. eauto 8.
Qed.

Lemma clearRefinement_Ok helper refinement cleared (w : @World State Instance) :
  clearRefinementFromState (state (helpers w helper)) refinement = Ok cleared →
  ∃ w',
    clearRefinement helper refinement w = (Ok (), w')
    ∧ helpers w' helper
      = {| state := cleared; searches := S (searches (helpers w helper)) |}
    ∧ (∀ other, other ≠ helper → helpers w' other = helpers w other)
    ∧ functions w' = functions w
    ∧ _clearRefinementsAndSearch w' = _clearRefinementsAndSearch w
    ∧ rendered w' = rendered w.
Proof.
  intros Hcleared. unfold clearRefinement, mbind, M_bind, helperState, liftResult.
  rewrite Hcleared. unfold helperSetState, helperSearch. eexists. split; [reflexivity|].
  simpl. rewrite Nat.eqb_refl. simpl. split; [done|]. split; [|done].
  intros other Hne%Nat.eqb_neq. by rewrite Hne.
Qed.

(** X13: for a refinement of a recognized type, [clearRefinement] gives
    the helper the state with the refinement cleared and makes it search
    once; the other helpers, the function objects, the widget and the
    calls of the render function are as before. *)
Theorem clearRefinement_effect helper refinement cleared (w : @World State Instance) :
  clearRefinementFromState (state (helpers w helper)) refinement = Ok cleared →
  ∃ w',
    clearRefinement helper refinement w = (Ok (), w')
    ∧ helpers w' helper
      = {| state := cleared; searches := S (searches (helpers w helper)) |}
    ∧ (∀ other, other ≠ helper → helpers w' other = helpers w other)
    ∧ functions w' = functions w
    ∧ _clearRefinementsAndSearch w' = _clearRefinementsAndSearch w
    ∧ rendered w' = rendered w.
Proof. apply clearRefinement_Ok. Qed.

Variable clearRefinementsAndSearch : nat → list string → @M State Instance unit.

Lemma clicks_built (createURL : State → string) (current : State) helper
    (w : @World State Instance) refinements urls before :
  mapResult (λ r, resultMap createURL (clearRefinementFromState current r)) refinements
  = Ok urls →
  functions w = before ++ map (BoundClearRefinement helper) refinements →
  ∀ (i : nat) r f,
    refinements !! i = Some r →
    seq (length before) (length refinements) !! i = Some f →
    ∃ cleared w',
      clearRefinementFromState (state (helpers w helper)) r = Ok cleared
      ∧ callFunction clearRefinementsAndSearch f w = (Ok (), w')
      ∧ helpers w' helper
        = {| state := cleared; searches := S (searches (helpers w helper)) |}.
Proof.
  intros [_ Hurls]%mapResult_lookup Hfunctions i r f Hi Hf.
  apply lookup_seq in Hf as [-> _].
  destruct (Hurls i r Hi) as (url & Hurl & _).
  assert (type r ∈ recognizedTypes) as Hrecognized.
  { destruct (decide (type r ∈ recognizedTypes)) as [|Hnot]; [done|].
    assert (clearRefinementFromState current r = Throw (notHandled (type r))) as Hthrow
      by by apply clearRefinementFromState_Throw.
    by rewrite Hthrow in Hurl. }
  destruct (recognized_Ok (state (helpers w helper)) r Hrecognized) as [cleared Hcleared].
  destruct (clearRefinement_Ok helper r cleared w Hcleared) as (w' & Hrun & Hhelper & _).
  exists cleared, w'. split; [done|]. split; [|done].
  unfold callFunction. rewrite Hfunctions, lookup_app_r by lia.
  replace (length before + i - length before)%nat with i by lia.
  by rewrite list_lookup_fmap, Hi.
Qed.

(** X16: every click that a pass hands to the render function works: called
    in the world the pass leaves, [clearRefinementClicks[i]] does not throw,
    gives the helper its current state with [refinements[i]] cleared and
    makes it search once. *)
Theorem clicks_clear widget :
  (∀ options (w : @World State Instance),
     match init getRefinements clearRefinementsFromState emptyObject widget options w with
     | (Ok _, w') =>
         ∃ params refinements clicks,
           rendered w' = rendered w ++ [(params, true)]
           ∧ lookupProperty params "refinements" = Some (VRefinements refinements)
           ∧ lookupProperty params "clearRefinementClicks" = Some (VFunctions clicks)
           ∧ ∀ (i : nat) r f,
               refinements !! i = Some r → clicks !! i = Some f →
               ∃ cleared w'',
                 clearRefinementFromState (state (helpers w' (init_helper options))) r
                 = Ok cleared
                 ∧ callFunction clearRefinementsAndSearch f w' = (Ok (), w'')
                 ∧ helpers w'' (init_helper options)
                   = {| state := cleared;
                        searches := S (searches (helpers w' (init_helper options))) |}
     | (Throw _, w') => rendered w' = rendered w
     end)
  ∧ (∀ options (w : @World State Instance),
       match render getRefinements clearRefinementsFromState widget options w with
       | (Ok _, w') =>
           ∃ params refinements clicks,
             rendered w' = rendered w ++ [(params, false)]
             ∧ lookupProperty params "refinements" = Some (VRefinements refinements)
             ∧ lookupProperty params "clearRefinementClicks" = Some (VFunctions clicks)
             ∧ ∀ (i : nat) r f,
                 refinements !! i = Some r → clicks !! i = Some f →
                 ∃ cleared w'',
                   clearRefinementFromState (state (helpers w' (render_helper options))) r
                   = Ok cleared
                   ∧ callFunction clearRefinementsAndSearch f w' = (Ok (), w'')
                   ∧ helpers w'' (render_helper options)
                     = {| state := cleared;
                          searches := S (searches (helpers w' (render_helper options))) |}
       | (Throw _, w') => rendered w' = rendered w
       end).
Proof.
  split; intros options w.
  - rewrite init_unfold. destruct (mapResult _ _) as [urls|e] eqn:Hurls; [|done].
    eexists _, _, _. split; [reflexivity|]. split; [reflexivity|]. split; [reflexivity|].
    intros i r f Hi Hf.
    eapply (clicks_built (init_createURL options)); [exact Hurls | reflexivity | exact Hi | exact Hf].
  - rewrite render_unfold. destruct (mapResult _ _) as [urls|e] eqn:Hurls; [|done].
    eexists _, _, _. split; [reflexivity|]. split; [reflexivity|]. split; [reflexivity|].
    intros i r f Hi Hf.
    eapply (clicks_built (render_createURL options)); [exact Hurls | reflexivity | exact Hi | exact Hf].
Qed.

(** X14: a second [init] makes a new function object for [clearAllClick]
    and keeps that one: the reference it passes differs from the one of
    the first [init], whose function object is still there. *)
Theorem init_again widget options1 options2 (w : @World State Instance) :
  let w1 := (init getRefinements clearRefinementsFromState emptyObject widget options1 w).2 in
  let w2 := (init getRefinements clearRefinementsFromState emptyObject widget options2 w1).2 in
  _clearRefinementsAndSearch w1 = Some (length (functions w))
  ∧ _clearRefinementsAndSearch w2 = Some (length (functions w1))
  ∧ _clearRefinementsAndSearch w2 ≠ _clearRefinementsAndSearch w1
  ∧ functions w2 !! length (functions w)
    = Some (BoundClearRefinementsAndSearch (init_helper options1) (widget_restrictedTo widget))
  ∧ functions w2 !! length (functions w1)
    = Some (BoundClearRefinementsAndSearch (init_helper options2) (widget_restrictedTo widget)).
Proof.
  intros w1 w2.
  assert (∀ options (w0 : @World State Instance),
    let w' := (init getRefinements clearRefinementsFromState emptyObject widget options w0).2 in
    _clearRefinementsAndSearch w' = Some (length (functions w0))
    ∧ ∃ more,
        functions w'
        = functions w0
          ++ BoundClearRefinementsAndSearch (init_helper options) (widget_restrictedTo widget)
          :: more) as Hinit.
  { intros options w0 w'. subst w'. rewrite init_unfold.
    destruct (mapResult _ _); simpl; (split; [done|]); eexists;
      rewrite <- ?app_assoc; reflexivity. }
  destruct (Hinit options1 w) as [Hc1 [more1 Hf1]].
  destruct (Hinit options2 w1) as [Hc2 [more2 Hf2]].
  fold w1 in Hc1, Hf1. fold w2 in Hc2, Hf2.
  split; [done|]. split; [done|]. split; [|split].
  - rewrite Hc1, Hc2, Hf1, length_app. simpl. intros [= Hlen]. lia.
  - rewrite Hf2, Hf1, <- app_assoc. by apply list_lookup_middle.
  - rewrite Hf2. by apply list_lookup_middle.
Qed.

End RenderingFurther.

Lemma range_not_recognized : "range" ∉ recognizedTypes.
Proof.
  unfold recognizedTypes. intros Hin.
  repeat (apply elem_of_cons in Hin as [Hin|Hin]; [discriminate Hin|]).
  by apply elem_of_nil in Hin.
Qed.

Lemma render_throws_witness :
  render listRefinements listClearRefinementsFromState sampleWidget
    (sampleRender strangeState) sampleWorld
  = (Throw (notHandled "range"), sampleWorld).
Proof.
  apply (proj2 (render_throws listRefinements listClearRefinementsFromState sampleWidget
                  (sampleRender strangeState) sampleWorld)
           [] (mkRefinement "range" "b" "m" PUndefined PUndefined) [facet "a" "red"]).
  - reflexivity.
  - apply Forall_nil_2.
  - exact range_not_recognized.
Defined.

Lemma init_throws_witness :
  ∃ w',
    init listRefinements listClearRefinementsFromState () sampleWidget sampleInit
      (worldOf strangeState)
    = (Throw (notHandled "range"), w').
Proof.
  apply (proj2 (init_throws listRefinements listClearRefinementsFromState () sampleWidget
                  sampleInit (worldOf strangeState))
           [] (mkRefinement "range" "b" "m" PUndefined PUndefined) [facet "a" "red"]).
  - reflexivity.
  - apply Forall_nil_2.
  - exact range_not_recognized.
Defined.

Lemma clearRefinement_effect_witness :
  ∃ w',
    clearRefinement 0 (facet "a" "red") sampleWorld = (Ok (), w')
    ∧ helpers w' 0%nat
      = {| state := removeFacetRefinement sampleState "a" "red"; searches := 1 |}
    ∧ (∀ other, other ≠ 0%nat → helpers w' other = helpers sampleWorld other)
    ∧ functions w' = functions sampleWorld
    ∧ _clearRefinementsAndSearch w' = _clearRefinementsAndSearch sampleWorld
    ∧ rendered w' = rendered sampleWorld.
Proof.
  exact (clearRefinement_effect 0 (facet "a" "red")
           (removeFacetRefinement sampleState "a" "red") sampleWorld eq_refl).
Defined.

(** ** The arrays of the collector *)

Section InPlaceFurther.
Context {Results State : Type}.
Variable getRefinementsRef : Results → State → list Cell → nat * list Cell.
Variable getRefinements : Results → State → list Refinement.
Hypothesis getRefinements_new : returnsNewArray getRefinementsRef getRefinements.

(** X15: [getFilteredRefinements] sorts the array of [getRefinements] in
    place: after the call that array holds all the refinements, sorted,
    whether the result is filtered or not.  Without filtering the array
    returned is that very array; with filtering it is a new array. *)
Theorem getFilteredRefinementsRef_in_place results state attributeNames
    onlyListedAttributes heap :
  let a := (getRefinementsRef results state heap).1 in
  let result :=
    getFilteredRefinementsRef getRefinementsRef results state attributeNames
      onlyListedAttributes heap in
  result.2 !! a
  = Some (ArrayOfRefinements
            (getFilteredRefinements getRefinements results state attributeNames false))
  ∧ (onlyListedAttributes && negb (Nat.eqb (length attributeNames) 0) = false →
     result.1 = a)
  ∧ (onlyListedAttributes && negb (Nat.eqb (length attributeNames) 0) = true →
     result.1 ≠ a ∧ (length heap ≤ result.1)%nat
     ∧ heap !! result.1 = None).
Proof.
  unfold getFilteredRefinementsRef, getFilteredRefinements, sortAndFilter.
  destruct (getRefinements_new results state heap) as (added & Hheap & Hle & Hlook).
  destruct (getRefinementsRef results state heap) as [a heap1]. simpl in Hheap, Hle, Hlook.
  subst heap1. set (raw := getRefinements results state) in *.
  set (heap1 := heap ++ added) in *.
  assert (a < length heap1)%nat as Hlt by by eapply lookup_lt_Some.
  unfold alloc.
  assert (readRefinements a (heap1 ++ [ArrayOfStrings []]) = raw) as ->.
  { unfold readRefinements. by rewrite lookup_app_l, Hlook by done. }
  rewrite collect_in_heap. fold (otherAttributeNames attributeNames raw).
  rewrite readStrings_snoc.
  set (sorted := sort (compareRefinements attributeNames
                         (otherAttributeNames attributeNames raw)) raw).
  assert (sortInPlace
            (compareRefinements attributeNames (otherAttributeNames attributeNames raw)) a
            (heap1 ++ [ArrayOfStrings (otherAttributeNames attributeNames raw)])
          = <[a := ArrayOfRefinements sorted]> heap1
            ++ [ArrayOfStrings (otherAttributeNames attributeNames raw)]) as ->.
  { unfold sortInPlace. rewrite lookup_app_l, Hlook by done. by rewrite insert_app_l. }
  assert (∀ rest,
    (<[a := ArrayOfRefinements sorted]> heap1 ++ rest) !! a
    = Some (ArrayOfRefinements sorted)) as Hread.
  { intros rest. rewrite lookup_app_l by by rewrite length_insert.
    by rewrite list_lookup_insert_eq. }
  simpl.
  destruct (onlyListedAttributes && _); simpl.
  - split; [by rewrite <- app_assoc, Hread|]. split; [done|]. intros _.
    rewrite !length_app, length_insert. unfold heap1 in *. rewrite length_app in *.
    simpl. split; [lia|]. split; [lia|]. apply lookup_ge_None. lia.
  - split; [apply Hread|]. split; [done|]. done.
Qed.
End InPlaceFurther.

Lemma getFilteredRefinementsRef_in_place_witness :
  (getFilteredRefinementsRef listRefinementsRef () sampleState ["b"; "a"] false
     [OtherObject JsNull]).1
  = (listRefinementsRef () sampleState [OtherObject JsNull]).1.
Proof.
  assert (returnsNewArray listRefinementsRef listRefinements) as Hnew.
  { intros results state heap.
    exists [ArrayOfRefinements (listRefinements results state)].
    split; [reflexivity|]. split; [simpl; lia|].
    apply list_lookup_middle. reflexivity. }
  apply (proj1 (proj2 (getFilteredRefinementsRef_in_place listRefinementsRef listRefinements
                         Hnew () sampleState ["b"; "a"] false [OtherObject JsNull]))).
  reflexivity.
Defined.
